(** * Event extraction pipeline of go-together: a shallow embedding

    Sources embedded here:
    - [src/scripts/fetch-events.ts]: the batch script ([getDynamicDateParams],
      [main]: search fan-out, deduplication, context assembly, extraction,
      sort and write).
    - [src/unnamed/part_000]: the on-demand route handler [POST] (and an
      older copy of the batch script, whose sort is the same code).

    JavaScript strings are kept as Rocq [string]s; the UTF-8 literals of the
    source are written as they are. The JSON values, the zod schema checks,
    the JS [Map] used for deduplication and the engine's [Array.prototype.sort]
    are written out below. *)

From Stdlib Require Import String Ascii List ZArith Lia Bool.
From Stdlib Require Import Permutation Sorted RelationClasses.
Import ListNotations.
Open Scope string_scope.

(* ------------------------------------------------------------------ *)
(** ** Thrown values and promise outcomes *)

(** A value thrown by a JS call: an [Error] instance (with its [message])
    or any other value (with its [String(...)] rendering). *)
Inductive thrown : Type :=
| ErrorObj (message : string)
| OtherValue (repr : string).

(** The settled state of an awaited promise. *)
Inductive outcome (A : Type) : Type :=
| Resolved (a : A)
| Rejected (t : thrown).
Arguments Resolved {A} a.
Arguments Rejected {A} t.

(** [Promise.all]: resolves with every value in order, or rejects with the
    first rejection (in the order of the array). *)
Fixpoint promise_all {A : Type} (ps : list (outcome A)) : outcome (list A) :=
  match ps with
  | [] => Resolved []
  | Resolved a :: rest =>
      match promise_all rest with
      | Resolved l => Resolved (a :: l)
      | Rejected t => Rejected t
      end
  | Rejected t :: _ => Rejected t
  end.

(* ------------------------------------------------------------------ *)
(** ** String helpers *)

Definition char_of (n : nat) : string := String (ascii_of_nat n) EmptyString.
(** The double quote and the newline characters. *)
Definition dq : string := char_of 34.
Definition nl : string := char_of 10.

(** [String.prototype.includes]. *)
Fixpoint includes (s sub : string) : bool :=
  if prefix sub s then true
  else match s with
       | EmptyString => false
       | String _ rest => includes rest sub
       end.

(** Decimal rendering of a natural number, as [String(n)]. *)
Fixpoint digits_aux (fuel n : nat) (acc : string) : string :=
  match fuel with
  | O => acc
  | S f =>
      let acc' := String (ascii_of_nat (48 + n mod 10)) acc in
      if Nat.ltb n 10 then acc' else digits_aux f (n / 10) acc'
  end.
Definition nat_to_string (n : nat) : string := digits_aux (S n) n EmptyString.

(** [String(z)] for an integer. *)
Definition Z_to_string (z : Z) : string :=
  if (z <? 0)%Z then "-" ++ nat_to_string (Z.to_nat (- z))
  else nat_to_string (Z.to_nat z).

(** [s.padStart(2, '0')]. *)
Definition pad2 (s : string) : string :=
  if Nat.ltb (String.length s) 2 then "0" ++ s else s.

(** [arr.join(sep)]. *)
Fixpoint join (sep : string) (l : list string) : string :=
  match l with
  | [] => ""
  | [x] => x
  | x :: rest => x ++ sep ++ join sep rest
  end.

(* ------------------------------------------------------------------ *)
(** ** Search hits and the deduplication through a JS [Map] *)

(** One result of [tvly.search]: the fields the pipeline reads. *)
Record RawHit : Type := mkRawHit {
  url : string;
  title : string;
  content : string
}.

(** A JS [Map] with string keys: entries in insertion order. *)
Definition JsMap (V : Type) : Type := list (string * V).

(** [map.set(k, v)]: an existing key keeps its position and takes the new
    value; a new key is appended at the end. *)
Fixpoint map_set {V : Type} (k : string) (v : V) (m : JsMap V) : JsMap V :=
  match m with
  | [] => [(k, v)]
  | (k', v') :: rest =>
      if String.eqb k k' then (k', v) :: rest else (k', v') :: map_set k v rest
  end.

(** [map.get(k)]. *)
Fixpoint map_get {V : Type} (k : string) (m : JsMap V) : option V :=
  match m with
  | [] => None
  | (k', v) :: rest => if String.eqb k k' then Some v else map_get k rest
  end.

(** [new Map(entries)]: [set] applied to each entry in order. *)
Definition new_map {V : Type} (entries : list (string * V)) : JsMap V :=
  fold_left (fun m kv => map_set (fst kv) (snd kv) m) entries [].

(** [map.values()] read into an array. *)
Definition map_values {V : Type} (m : JsMap V) : list V := map snd m.

(** [Array.from(new Map(allRawResults.map(item => [item.url, item])).values())] *)
Definition dedup (allRawResults : list RawHit) : list RawHit :=
  map_values (new_map (map (fun item => (url item, item)) allRawResults)).

(** The last hit of [l] with link [k], if any. *)
Fixpoint last_occ (k : string) (l : list RawHit) : option RawHit :=
  match l with
  | [] => None
  | h :: rest =>
      match last_occ k rest with
      | Some h' => Some h'
      | None => if String.eqb (url h) k then Some h else None
      end
  end.

(** The distinct links of a list, in the order of their first occurrence. *)
Fixpoint firsts (l : list string) : list string :=
  match l with
  | [] => []
  | x :: rest => x :: filter (fun y => negb (String.eqb x y)) (firsts rest)
  end.

(* ------------------------------------------------------------------ *)
(** ** Query planner: [getDynamicDateParams] *)

(** The local calendar fields of a JS [Date] ([getFullYear], [getMonth]
    (0-based) and [getDate]); the time of day is carried along unchanged by
    [setMonth] and never read, so it is left out. *)
Record LocalDate : Type := mkLocalDate {
  yr : Z;
  mon : Z;
  dy : Z
}.

Definition is_leap (y : Z) : bool :=
  (Z.eqb (Z.modulo y 4) 0 && negb (Z.eqb (Z.modulo y 100) 0))
  || Z.eqb (Z.modulo y 400) 0.

(** Number of days of month [m] (0-based) of year [y]. *)
Definition days_in_month (y m : Z) : Z :=
  if Z.eqb m 1 then (if is_leap y then 29%Z else 28%Z)
  else if Z.eqb m 3 || Z.eqb m 5 || Z.eqb m 8 || Z.eqb m 10 then 30%Z
  else 31%Z.

Definition valid_date (d : LocalDate) : Prop :=
  (0 <= mon d <= 11)%Z /\ (1 <= dy d <= days_in_month (yr d) (mon d))%Z.

(** [d.setMonth(m)]: MakeDay(year, m, date). The month index is normalised
    into the year ([floor(m/12)], [m mod 12]) and the day of month is kept;
    a day past the end of the target month runs on into the next month (the
    day is at most 31 and every month has at least 28 days, so it runs on at
    most one month). The year is not bounded here: a JS [Date] past the
    time-value limit (8.64e15 ms, about years -271821 and 275760) becomes an
    Invalid Date, which this model does not produce. *)
Definition set_month (d : LocalDate) (m : Z) : LocalDate :=
  let y' := (yr d + m / 12)%Z in
  let mm := Z.modulo m 12 in
  let dim := days_in_month y' mm in
  if Z.leb (dy d) dim then mkLocalDate y' mm (dy d)
  else if Z.eqb mm 11 then mkLocalDate (y' + 1) 0 (dy d - dim)
  else mkLocalDate y' (mm + 1) (dy d - dim).

(** The inner [formatDate] of [getDynamicDateParams]. *)
Definition formatDate (date : LocalDate) : string :=
  let yyyy := Z_to_string (yr date) in
  let mm := pad2 (Z_to_string (mon date + 1)) in
  let dd := pad2 (Z_to_string (dy date)) in
  yyyy ++ "/" ++ mm ++ "/" ++ dd.

Record DateParams : Type := mkDateParams {
  startDate : string;
  endDate : string;
  searchString : string
}.

(** The body of the [for (let i = 0; i < 3; i++)] loop: the keyword pushed
    for month offset [i]. *)
Definition month_keyword (now : LocalDate) (i : Z) : string :=
  let d := set_month now (mon now + i) in
  let year := yr d in
  let month := (mon d + 1)%Z in
  dq ++ Z_to_string year ++ " " ++ Z_to_string month ++ "月" ++ dq.

(** The loop, pushing onto [monthKeywords] for [i] from [from] while
    [i < 3]. *)
Fixpoint keyword_loop (fuel : nat) (now : LocalDate) (i : Z)
    (monthKeywords : list string) : list string :=
  match fuel with
  | O => monthKeywords
  | S f =>
      if Z.ltb i 3
      then keyword_loop f now (i + 1) (monthKeywords ++ [month_keyword now i])
      else monthKeywords
  end.

Definition getDynamicDateParams (now : LocalDate) : DateParams :=
  let startDate := formatDate now in
  let futureDate := set_month now (mon now + 2) in
  let endDate := formatDate futureDate in
  let monthKeywords := keyword_loop 3 now 0 [] in
  let searchString := join " OR " monthKeywords in
  mkDateParams startDate endDate searchString.

(* ------------------------------------------------------------------ *)
(** ** JSON values and the zod [EventSchema] *)

(** A JSON value as produced by [JSON.parse] (numbers kept as integers:
    no field of the schema is a number). An object's members are listed in
    order, with distinct keys. *)
#[warnings="-register-all"]
Inductive json : Type :=
| JNull
| JBool (b : bool)
| JNum (n : Z)
| JStr (s : string)
| JArr (items : list json)
| JObj (fields : list (string * json)).

(** Property read [obj[k]]; [None] is [undefined]. *)
Definition get_field (k : string) (fields : list (string * json)) : option json :=
  match find (fun kv => String.eqb (fst kv) k) fields with
  | Some (_, v) => Some v
  | None => None
  end.

(** [z.string()]. *)
Definition z_string (j : json) : option string :=
  match j with JStr s => Some s | _ => None end.

Fixpoint all_items {A : Type} (p : json -> option A) (l : list json)
    : option (list A) :=
  match l with
  | [] => Some []
  | x :: rest =>
      match p x, all_items p rest with
      | Some a, Some r => Some (a :: r)
      | _, _ => None
      end
  end.

(** [z.array(p)]: no length bound unless [.min]/[.max]/[.length] is given. *)
Definition z_array {A : Type} (p : json -> option A) (j : json)
    : option (list A) :=
  match j with JArr l => all_items p l | _ => None end.

(** A required member of a [z.object]. *)
Definition req {A : Type} (p : json -> option A) (k : string)
    (fields : list (string * json)) : option A :=
  match get_field k fields with Some v => p v | None => None end.

(** An [.optional()] member: absent is accepted as [undefined]. *)
Definition opt {A : Type} (p : json -> option A) (k : string)
    (fields : list (string * json)) : option (option A) :=
  match get_field k fields with
  | None => Some None
  | Some v => match p v with Some a => Some (Some a) | None => None end
  end.

(** [EventCategoryEnum]. *)
Inductive Category : Type :=
| Concert | Exhibition | PerformingArts | Leisure | OtherCategory.

Definition category_label (c : Category) : string :=
  match c with
  | Concert => "演唱會"
  | Exhibition => "展覽"
  | PerformingArts => "表演藝術"
  | Leisure => "生活休閒"
  | OtherCategory => "其他"
  end.

Definition all_categories : list Category :=
  [Concert; Exhibition; PerformingArts; Leisure; OtherCategory].

(** The [source] enum of [EventSchema] in [fetch-events.ts] and in [POST]. *)
Inductive SourceLabel : Type :=
| Src_KKTIX | Src_Kham | Src_FarEast | Src_Era | Src_iNDIEVOX
| Src_Billboard | Src_Huashan | Src_Other.

Definition source_label (s : SourceLabel) : string :=
  match s with
  | Src_KKTIX => "KKTIX"
  | Src_Kham => "寬宏"
  | Src_FarEast => "遠大"
  | Src_Era => "年代"
  | Src_iNDIEVOX => "iNDIEVOX"
  | Src_Billboard => "BILLBOARD LIVE TAIPEI"
  | Src_Huashan => "華山文創園區"
  | Src_Other => "其他"
  end.

Definition all_sources : list SourceLabel :=
  [Src_KKTIX; Src_Kham; Src_FarEast; Src_Era; Src_iNDIEVOX; Src_Billboard;
   Src_Huashan; Src_Other].

(** [z.enum(values)]: a string equal to one of the values. *)
Definition z_enum {A : Type} (label : A -> string) (values : list A) (j : json)
    : option A :=
  match j with
  | JStr s => find (fun a => String.eqb (label a) s) values
  | _ => None
  end.

Record Session : Type := mkSession {
  location : string;
  date : list string;
  session_url : string
}.

Record Event : Type := mkEvent {
  description : string;
  ev_title : string;
  image_url : option string;
  sessions : list Session;
  category : Category;
  tags : option (list string);
  ev_url : string;
  source : SourceLabel
}.

(** The session object of [EventSchema]:
    [{ location: z.string(), date: z.array(z.string()), url: z.string() }]. *)
Definition parse_session (j : json) : option Session :=
  match j with
  | JObj fs =>
      match req z_string "location" fs, req (z_array z_string) "date" fs,
            req z_string "url" fs with
      | Some l, Some d, Some u => Some (mkSession l d u)
      | _, _, _ => None
      end
  | _ => None
  end.

(** The event object of [EventSchema]. *)
Definition parse_event (j : json) : option Event :=
  match j with
  | JObj fs =>
      match req z_string "description" fs, req z_string "title" fs,
            opt z_string "image_url" fs, req (z_array parse_session) "sessions" fs,
            req (z_enum category_label all_categories) "category" fs,
            opt (z_array z_string) "tags" fs, req z_string "url" fs,
            req (z_enum source_label all_sources) "source" fs with
      | Some d, Some t, Some im, Some ss, Some c, Some tg, Some u, Some src =>
          Some (mkEvent d t im ss c tg u src)
      | _, _, _, _, _, _, _, _ => None
      end
  | _ => None
  end.

(** [EventSchema = z.object({ events: z.array(...) })]. *)
Definition parse_EventSchema (j : json) : option (list Event) :=
  match j with
  | JObj fs => req (z_array parse_event) "events" fs
  | _ => None
  end.

(* ------------------------------------------------------------------ *)
(** ** [Array.prototype.sort] as run by V8 *)

(** V8's TimSort, for an array shorter than 64 elements (the minimum run
    length is then the whole length): [CountAndMakeRun] finds the leading
    run (non-descending, or strictly descending and then reversed), and
    [BinaryInsertionSort] inserts every later element into the sorted prefix
    by binary search. [cmp] is [CallCompare]: the comparator's result
    converted by [ToNumber], NaN read as 0. For longer arrays V8 also merges
    runs; with a consistent comparator the result is the one stable sorted
    order either way. *)
Section ArraySort.
Variable A : Type.
Variable cmp : A -> A -> Z.

(** The loop of [CountAndMakeRun] after the first two elements: the number
    of further elements that extend the run. *)
Fixpoint run_tail (isDescending : bool) (previousElement : A) (l : list A)
    : nat :=
  match l with
  | [] => O
  | currentElement :: rest =>
      let order := cmp currentElement previousElement in
      if (if isDescending then Z.geb order 0 else Z.ltb order 0) then O
      else S (run_tail isDescending currentElement rest)
  end.

(** The binary search of [BinaryInsertionSort] for [pivot] in the sorted
    prefix [arr]: [while (left < right)], one step per unit of fuel. *)
Fixpoint bs_loop (fuel : nat) (pivot : A) (arr : list A) (left right : nat)
    : nat :=
  match fuel with
  | O => left
  | S f =>
      if Nat.ltb left right then
        let mid := left + (right - left) / 2 in
        let order := cmp pivot (nth mid arr pivot) in
        if Z.ltb order 0 then bs_loop f pivot arr left mid
        else bs_loop f pivot arr (S mid) right
      else left
  end.

(** Insertion of [pivot] at the position found: the elements from there on
    move up by one. *)
Definition bin_insert (arr : list A) (pivot : A) : list A :=
  let left := bs_loop (S (length arr)) pivot arr 0 (length arr) in
  firstn left arr ++ pivot :: skipn left arr.

Definition binary_insertion_sort (sorted rest : list A) : list A :=
  fold_left bin_insert rest sorted.

Definition array_sort (l : list A) : list A :=
  match l with
  | [] | [_] => l
  | elementLowPre :: elementLow :: rest =>
      let order := cmp elementLow elementLowPre in
      let isDescending := Z.ltb order 0 in
      let runLength := 2 + run_tail isDescending elementLow rest in
      let run := firstn runLength l in
      let run' := if isDescending then rev run else run in
      binary_insertion_sort run' (skipn runLength l)
  end.

End ArraySort.
Arguments run_tail {A} cmp isDescending previousElement l.
Arguments bs_loop {A} cmp fuel pivot arr left right.
Arguments bin_insert {A} cmp arr pivot.
Arguments binary_insertion_sort {A} cmp sorted rest.
Arguments array_sort {A} cmp l.

(** [new Date(a.sessions[0]?.date[0]).valueOf()]: [undefined] (no session,
    or a session with an empty date array) gives NaN, written [None];
    a string goes through the engine's date parser [parse_date]. *)
Definition first_date_value (parse_date : string -> option Z) (e : Event)
    : option Z :=
  match sessions e with
  | [] => None
  | s :: _ =>
      match date s with
      | [] => None
      | d :: _ => parse_date d
      end
  end.

(** The comparator [(a, b) => dateA - dateB]; NaN when either side is NaN. *)
Definition compare_events (parse_date : string -> option Z) (a b : Event)
    : option Z :=
  match first_date_value parse_date a, first_date_value parse_date b with
  | Some x, Some y => Some (x - y)%Z
  | _, _ => None
  end.

(** [CallCompare]: NaN is read as 0. *)
Definition call_compare {A : Type} (f : A -> A -> option Z) (a b : A) : Z :=
  match f a b with Some r => r | None => 0%Z end.

(** [events.sort(...)] in [main]. *)
Definition sort_events (parse_date : string -> option Z) (events : list Event)
    : list Event :=
  array_sort (call_compare (compare_events parse_date)) events.

(** The engine's parser on the ISO date-only form [YYYY-MM-DD], which
    ECMAScript fixes (UTC midnight, in milliseconds since the epoch);
    other forms are left to the implementation and not parsed here. *)
Definition days_from_civil (y m d : Z) : Z :=
  let y' := if Z.leb m 2 then (y - 1)%Z else y in
  let era := Z.div y' 400 in
  let yoe := (y' - era * 400)%Z in
  let mp := if Z.leb m 2 then (m + 9)%Z else (m - 3)%Z in
  let doy := ((153 * mp + 2) / 5 + d - 1)%Z in
  let doe := (yoe * 365 + yoe / 4 - yoe / 100 + doy)%Z in
  (era * 146097 + doe - 719468)%Z.

Definition digit_val (c : ascii) : option Z :=
  let n := nat_of_ascii c in
  if andb (Nat.leb 48 n) (Nat.leb n 57) then Some (Z.of_nat (n - 48)) else None.

Fixpoint digits_val (s : string) (acc : Z) : option Z :=
  match s with
  | EmptyString => Some acc
  | String c rest =>
      match digit_val c with
      | Some v => digits_val rest (acc * 10 + v)%Z
      | None => None
      end
  end.

Definition iso_parse_date (s : string) : option Z :=
  if andb (Nat.eqb (String.length s) 10)
       (andb (String.eqb (substring 4 1 s) "-") (String.eqb (substring 7 1 s) "-"))
  then
    match digits_val (substring 0 4 s) 0, digits_val (substring 5 2 s) 0,
          digits_val (substring 8 2 s) 0 with
    | Some y, Some m, Some d =>
        if andb (Z.leb 1 m) (Z.leb m 12)
        then if andb (Z.leb 1 d) (Z.leb d (days_in_month y (m - 1)))
             then Some (days_from_civil y m d * 86400000)%Z
             else None
        else None
    | _, _, _ => None
    end
  else None.

(* ------------------------------------------------------------------ *)
(** ** Search collector, context assembler and prompt *)

Record Site : Type := mkSite { name : string; domain : string }.

(** [TARGET_SITES] of [fetch-events.ts] (the same list as in [POST]). *)
Definition TARGET_SITES : list Site := [
  mkSite "KKTIX" "kktix.com";
  mkSite "寬宏" "kham.com.tw";
  mkSite "年代" "ticket.com.tw";
  mkSite "遠大" "ticketplus.com.tw";
  mkSite "iNDIEVOX" "indievox.com";
  mkSite "BILLBOARD LIVE TAIPEI" "billboardlivetaipei.tw";
  mkSite "華山文創園區" "huashan1914.com"].

(** The options object passed to [tvly.search]. *)
Record SearchOptions : Type := mkSearchOptions {
  maxResults : Z;
  search_depth : string
}.

(** The search collaborator [tvly.search(query, options)], as the settled
    promise of its [results]. *)
Definition SearchFn : Type := string -> SearchOptions -> outcome (list RawHit).

(** The query and the options of one site. *)
Definition site_query (searchString : string) (site : Site) : string :=
  "site:" ++ domain site ++ " ( " ++ searchString ++ " )".

Definition site_options (site : Site) : SearchOptions :=
  mkSearchOptions 15
    (if String.eqb (name site) "BILLBOARD LIVE TAIPEI" then "advanced" else "basic").

(** The async callback of [TARGET_SITES.map]: build the query, await the
    search, and on a throw log and return [[]]. *)
Definition search_site (search : SearchFn) (searchString : string) (site : Site)
    : outcome (list RawHit) :=
  match search (site_query searchString site) (site_options site) with
  | Resolved results => Resolved results
  | Rejected _ => Resolved []
  end.

(** [(await Promise.all(searchPromises)).flat()]. *)
Definition collect (search : SearchFn) (searchString : string) (sites : list Site)
    : outcome (list RawHit) :=
  match promise_all (map (search_site search searchString) sites) with
  | Resolved lists => Resolved (concat lists)
  | Rejected t => Rejected t
  end.

(** [s.slice(0, n)] (on the characters of the string as represented here). *)
Definition slice0 (n : nat) (s : string) : string := substring 0 n s.

(** The block of one hit, with its index [i]. *)
Definition hit_block (i : nat) (r : RawHit) : string :=
  "[ID:" ++ nat_to_string i ++ "] 標題: " ++ title r ++ nl ++ "來源: " ++ url r
  ++ nl ++ "內文摘要: " ++ slice0 1000 (content r).

Fixpoint map_indexed (i : nat) (l : list RawHit) : list string :=
  match l with
  | [] => []
  | r :: rest => hit_block i r :: map_indexed (S i) rest
  end.

(** [uniqueResults.map(...).join('\n\n---\n\n')]. *)
Definition searchContext_of (uniqueResults : list RawHit) : string :=
  join (nl ++ nl ++ "---" ++ nl ++ nl) (map_indexed 0 uniqueResults).

(** The [prompt] template literal of [generateObject] in [main] of [fetch-events.ts], line by line. *)
Definition main_prompt (startDate endDate searchContext : string) : string :=
  join nl [
    "";
    "            你是一個嚴謹的活動資料提取員。";
    "";
    "            【任務目標】";
    "            從提供的 Raw Data 中提取符合時間範圍的活動資訊。";
    "";
    "            【資料聚合規則 (Aggregation)】";
    "            若多個搜尋結果為「同一個巡迴/展覽」的不同場地或時間：";
    "            1. 合併為單一 Event 物件。";
    "            2. 主標題 (title) 使用最通用名稱，去除地點後綴（如「台北站」）。";
    "            3. 場次資訊放入 sessions 陣列。";
    "            4. sessions 陣列的 location 必須提取「完整的展演場館名稱」（如 " ++ dq ++ "Zepp New Taipei" ++ dq ++ "、" ++ dq ++ "台北小巨蛋" ++ dq ++ "）。若僅提及城市填寫城市名，完全無資訊填寫 " ++ dq ++ "未知" ++ dq ++ "。絕對不可自行簡化場館名。";
    "            5. 特殊指定：若來源為 Billboard Live TAIPEI 或 華山文創園區，location 請直接填寫 " ++ dq ++ "BILLBOARD LIVE TAIPEI" ++ dq ++ " 或 " ++ dq ++ "華山文創園區" ++ dq ++ "。";
    "";
    "            【時間範圍】";
    "            今天日期：" ++ startDate;
    "            目標範圍：" ++ startDate ++ " ~ " ++ endDate;
    "            ";
    "            【日期格式嚴格要求】";
    "            請將活動日期轉換為 JSON String Array：";
    "            1. **單日活動**：陣列只有一個元素。";
    "                範例：[" ++ dq ++ "2026-02-15" ++ dq ++ "]";
    "            2. **連續/區間活動**：陣列有兩個元素，代表 [開始日期, 結束日期]。";
    "                範例：[" ++ dq ++ "2026-02-15" ++ dq ++ ", " ++ dq ++ "2026-03-10" ++ dq ++ "]";
    "";
    "            【過濾規則】";
    "            1. 嚴格捨棄：內文未提及日期、日期不在目標範圍內。";
    "            2. 雜訊排除：純粹的 " ++ dq ++ "會員登入頁" ++ dq ++ "、" ++ dq ++ "購票須知" ++ dq ++ "、" ++ dq ++ "過期活動" ++ dq ++ "。";
    "";
    "            【分類邏輯】";
    "            1. 演唱會：包含 巡迴、Live、演唱會、見面會、音樂祭。";
    "            2. 展覽：包含 特展、展覽、美術館、博覽會、快閃店。";
    "            3. 表演藝術：包含 舞台劇、音樂劇、舞蹈、馬戲、脫口秀、相聲。";
    "            4. 生活休閒：包含 市集、講座、工作坊、路跑、營隊。";
    "            5. 其他：無法歸類者。";
    "";
    "            【待處理資料】";
    "            " ++ searchContext;
    "        "].

(** The [prompt] template literal of [generateObject] in [POST], line by line. *)
Definition post_prompt (startDate endDate searchContext : string) : string :=
  join nl [
    "";
    "        你是一個嚴謹的活動資料提取員。";
    "";
    "        【任務目標】";
    "        從提供的 Raw Data 中提取符合時間範圍的活動資訊。";
    "";
    "        【資料聚合規則 (Aggregation)】";
    "        若多個搜尋結果為「同一個巡迴/展覽」的不同場地或時間：";
    "        1. 合併為單一 Event 物件。";
    "        2. 主標題 (title) 使用最通用名稱，去除地點後綴（如「台北站」）。";
    "        3. 場次資訊放入 sessions 陣列。";
    "        4. sessions 陣列的 location 必須提取「完整的展演場館名稱」（如 " ++ dq ++ "Zepp New Taipei" ++ dq ++ "、" ++ dq ++ "台北小巨蛋" ++ dq ++ "）。若僅提及城市填寫城市名，完全無資訊填寫 " ++ dq ++ "未知" ++ dq ++ "。絕對不可自行簡化場館名。";
    "        5. 特殊指定：若來源為 Billboard Live TAIPEI 或 華山文創園區，location 請直接填寫 " ++ dq ++ "BILLBOARD LIVE TAIPEI" ++ dq ++ " 或 " ++ dq ++ "華山文創園區" ++ dq ++ "。";
    "";
    "        【時間範圍】";
    "        今天日期：" ++ startDate;
    "        目標範圍：" ++ startDate ++ " ~ " ++ endDate;
    "";
    "        【日期格式嚴格要求】";
    "        請將活動日期轉換為 JSON String Array：";
    "        1. **單日活動**：陣列只有一個元素。";
    "            範例：[" ++ dq ++ "2026-02-15" ++ dq ++ "]";
    "        2. **連續/區間活動**：陣列有兩個元素，代表 [開始日期, 結束日期]。";
    "            範例：[" ++ dq ++ "2026-02-15" ++ dq ++ ", " ++ dq ++ "2026-03-10" ++ dq ++ "]";
    "";
    "        【過濾規則】";
    "        1. 嚴格捨棄：內文未提及日期、日期不在目標範圍內。";
    "        2. 雜訊排除：純粹的 " ++ dq ++ "會員登入頁" ++ dq ++ "、" ++ dq ++ "購票須知" ++ dq ++ "、" ++ dq ++ "過期活動" ++ dq ++ "。";
    "";
    "        【分類邏輯】";
    "        1. 演唱會：包含 巡迴、Live、演唱會、見面會、音樂祭。";
    "        2. 展覽：包含 特展、展覽、美術館、博覽會、快閃店。";
    "        3. 表演藝術：包含 舞台劇、音樂劇、舞蹈、馬戲、脫口秀、相聲。";
    "        4. 生活休閒：包含 市集、講座、工作坊、路跑、營隊。";
    "        5. 其他：無法歸類者。";
    "";
    "        【待處理資料】";
    "        " ++ searchContext;
    "      "].


(* ------------------------------------------------------------------ *)
(** ** Extraction, the batch [main] and the on-demand [POST] *)

(** Sequencing of awaited steps inside one [try] block: a rejection skips
    the rest. *)
Definition bind {A B : Type} (m : outcome A) (k : A -> outcome B) : outcome B :=
  match m with
  | Resolved a => k a
  | Rejected t => Rejected t
  end.
Notation "x <- m ;; k" := (bind m (fun x => k))
  (at level 61, m at next level, right associativity).

(** The language-model collaborator: the JSON object it returns for a model
    identifier and a prompt, or the error it throws. *)
Definition GenerateFn : Type := string -> string -> outcome json.

(** [generateObject({ model, schema: EventSchema, prompt })]: the returned
    object is validated against [EventSchema]; a mismatch throws. *)
Definition generate_object (generate : GenerateFn) (model prompt : string)
    : outcome (list Event) :=
  j <- generate model prompt ;;
  match parse_EventSchema j with
  | Some events => Resolved events
  | None => Rejected (ErrorObj "No object generated: response did not match schema.")
  end.

(** The steps shared by [main] and [POST], from [getDynamicDateParams] to
    [result.object.events]; [prompt_of] is the prompt template of the
    caller. *)
Definition extract (prompt_of : string -> string -> string -> string)
    (now : LocalDate) (search : SearchFn) (generate : GenerateFn)
    : outcome (list Event) :=
  let p := getDynamicDateParams now in
  allRawResults <- collect search (searchString p) TARGET_SITES ;;
  let uniqueResults := dedup allRawResults in
  let searchContext := searchContext_of uniqueResults in
  generate_object generate "gemini-2.5-flash"
    (prompt_of (startDate p) (endDate p) searchContext).

(** [writeFileSync(outPath, JSON.stringify({ events }, null, 2), 'utf-8')]:
    the write of [public/events.json], given the array it serializes; it
    may throw. *)
Definition WriteFn : Type := list Event -> outcome unit.

(** [main] of [fetch-events.ts], given the search client [tvly] of line 88
    (see [run_script]): extraction, sort, then the write; [Resolved events]
    is the array written as [{ events }] to [public/events.json]. *)
Definition main (parse_date : string -> option Z) (now : LocalDate)
    (search : SearchFn) (generate : GenerateFn) (writeFileSync : WriteFn)
    : outcome (list Event) :=
  events <- extract main_prompt now search generate ;;
  let sorted := sort_events parse_date events in
  bind (writeFileSync sorted) (fun _ => Resolved sorted).

(** The run of the script: [main().catch(err => process.exit(1))];
    [events_json] is the array written to [public/events.json], [None] when
    nothing was written. *)
Record BatchResult : Type := mkBatchResult {
  events_json : option (list Event);
  exit_code : Z
}.

Definition run_batch (parse_date : string -> option Z) (now : LocalDate)
    (search : SearchFn) (generate : GenerateFn) (writeFileSync : WriteFn)
    : BatchResult :=
  match main parse_date now search generate writeFileSync with
  | Resolved events => mkBatchResult (Some events) 0
  | Rejected _ => mkBatchResult None 1
  end.

Inductive ResponseBody : Type :=
| BodyEvents (events : list Event)
| BodyError (error : string) (message : string).

Record Response : Type := mkResponse { status : Z; body : ResponseBody }.

(** [const { prompt } = value]: destructuring [null] throws. *)
Definition destructure_prompt (v : json) : outcome (option json) :=
  match v with
  | JNull => Rejected (ErrorObj
      "Cannot destructure property 'prompt' of '(intermediate value)' as it is null.")
  | JObj fs => Resolved (get_field "prompt" fs)
  | _ => Resolved None
  end.

(** The [catch] block of [POST]. *)
Definition error_response (error : thrown) : Response :=
  let message := match error with ErrorObj m => m | OtherValue r => r end in
  if includes message "quota" || includes message "429"
     || includes message "exceeded"
  then mkResponse 429 (BodyError "QUOTA_EXCEEDED"
         "API 額度已用完，請稍後再試或更換 API Key。")
  else mkResponse 500 (BodyError "INTERNAL_ERROR" ("伺服器錯誤：" ++ message)).

(** The [try] block of [POST]: [req_json] is the settled [req.json()]; the
    search client [tvly] built at line 252 is the [search] collaborator (its
    construction is in [post_try_env]). *)
Definition post_try (req_json : outcome json) (now : LocalDate)
    (search : SearchFn) (generate : GenerateFn) : outcome (list Event) :=
  v <- req_json ;;
  prompt <- destructure_prompt v ;;
  extract post_prompt now search generate.

(** [POST(req)]: [Response.json(result.object)] on success, the [catch]
    block otherwise. *)
Definition POST (req_json : outcome json) (now : LocalDate)
    (search : SearchFn) (generate : GenerateFn) : Response :=
  match post_try req_json now search generate with
  | Resolved events => mkResponse 200 (BodyEvents events)
  | Rejected error => error_response error
  end.

(* ------------------------------------------------------------------ *)
(** ** Module load of [fetch-events.ts] *)

Definition Env : Type := string -> option string.

(** [config({ path })] of dotenv: the file's entries fill in the variables
    the process does not already have. *)
Definition load_dotenv (process_env dotenv_file : Env) : Env :=
  fun k => match process_env k with
           | Some v => Some v
           | None => dotenv_file k
           end.

(** The client constructors of the libraries, given the [apiKey] option
    they receive ([None] for [undefined]): [createGoogleGenerativeAI] of
    [@ai-sdk/google], whose provider is the [generate] collaborator, and
    [tavily] of [@tavily/core], whose client is the [search] collaborator.
    Either may throw; what they do with a missing key is the libraries'
    business, not the repository's. *)
Definition GoogleCtor : Type := option string -> outcome GenerateFn.
Definition TavilyCtor : Type := option string -> outcome SearchFn.

(** Module load: dotenv, then [googleAI] with
    [process.env.GOOGLE_GENERATIVE_AI_API_KEY!] (the [!] is a type-level
    assertion and checks nothing). *)
Definition startup (process_env dotenv_file : Env)
    (createGoogleGenerativeAI : GoogleCtor) : outcome GenerateFn :=
  let env := load_dotenv process_env dotenv_file in
  createGoogleGenerativeAI (env "GOOGLE_GENERATIVE_AI_API_KEY").

(** The key written into line 88 of [fetch-events.ts]. *)
Definition tavily_key_literal : string :=
  "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".

(** The process [fetch-events.ts]: module load, whose throw is uncaught and
    ends the process with 1; then [main()], which builds
    [tvly = tavily({ apiKey: "tvly-dev-..." })] at line 88 (a throw there
    rejects [main]) and goes on as [main] with that client, under
    [.catch(err => process.exit(1))]. *)
Definition run_script (process_env dotenv_file : Env)
    (createGoogleGenerativeAI : GoogleCtor) (tavily : TavilyCtor)
    (parse_date : string -> option Z) (now : LocalDate)
    (writeFileSync : WriteFn) : BatchResult :=
  match startup process_env dotenv_file createGoogleGenerativeAI with
  | Rejected _ => mkBatchResult None 1
  | Resolved googleAI =>
      match tavily (Some tavily_key_literal) with
      | Rejected _ => mkBatchResult None 1
      | Resolved tvly => run_batch parse_date now tvly googleAI writeFileSync
      end
  end.

(** The [try] block of [POST] with line 252:
    [tavily({ apiKey: process.env.TAVILY_API_KEY })], read from [env], the
    process environment when the request is handled. *)
Definition post_try_env (env : Env) (tavily : TavilyCtor)
    (req_json : outcome json) (now : LocalDate) (generate : GenerateFn)
    : outcome (list Event) :=
  v <- req_json ;;
  prompt <- destructure_prompt v ;;
  tvly <- tavily (env "TAVILY_API_KEY") ;;
  extract post_prompt now tvly generate.

Definition POST_env (env : Env) (tavily : TavilyCtor) (req_json : outcome json)
    (now : LocalDate) (generate : GenerateFn) : Response :=
  match post_try_env env tavily req_json now generate with
  | Resolved events => mkResponse 200 (BodyEvents events)
  | Rejected error => error_response error
  end.

(* ------------------------------------------------------------------ *)
(** ** The page [Home] of [src/app/page.tsx] *)

(** The [Event] interface of the page and of [SidePanel]: the members of a
    published event that the front end reads. Its sessions are the schema's
    session objects. *)
Record PageEvent : Type := mkPageEvent {
  pe_title : string;
  pe_sessions : list Session;
  pe_description : string;
  pe_tags : option (list string);
  pe_category : string
}.

(** A published [Event] after [JSON.stringify] and [response.json()]: the
    category is its label, an absent [tags] stays absent. *)
Definition to_page_event (e : Event) : PageEvent :=
  mkPageEvent (ev_title e) (sessions e) (description e) (tags e)
    (category_label (category e)).

(** Truthiness of a string: only [""] is falsy. *)
Definition truthy_str (s : string) : bool := negb (String.eqb s "").

(** Truthiness of a [string | null] state value. *)
Definition truthy (s : option string) : bool :=
  match s with Some v => truthy_str v | None => false end.

(** The callback of [events.filter] in [filteredEvents]. *)
Definition event_passes (activeCategory activeLocation activeTag : option string)
    (event : PageEvent) : bool :=
  if match activeCategory with
     | Some c => truthy_str c && negb (String.eqb (pe_category event) c)
     | None => false
     end then false
  else if match activeLocation with
     | Some l => truthy_str l
                 && negb (existsb (fun s => String.eqb (location s) l)
                                  (pe_sessions event))
     | None => false
     end then false
  else if match activeTag with
     | Some t => truthy_str t
                 && negb (existsb (String.eqb t)
                                  (match pe_tags event with
                                   | Some ts => ts
                                   | None => []
                                   end))
     | None => false
     end then false
  else true.

(** [filteredEvents]. *)
Definition filteredEvents (events : list PageEvent)
    (activeCategory activeLocation activeTag : option string) : list PageEvent :=
  filter (event_passes activeCategory activeLocation activeTag) events.

(** [hasActiveFilter], as the truth value it is used for. *)
Definition hasActiveFilter (activeCategory activeLocation activeTag : option string)
    : bool :=
  truthy activeCategory || truthy activeLocation || truthy activeTag.

(** The three filter states of the page. *)
Record Filters : Type := mkFilters {
  activeCategory : option string;
  activeLocation : option string;
  activeTag : option string
}.

Definition initial_filters : Filters := mkFilters None None None.

(** The handlers the page attaches: the "全部" item, a category item, a tag
    button, and the "清除全部篩選" button ([clearAllFilters]). *)
Inductive FilterAction : Type :=
| ClickAll
| ClickCategory (cat : string)
| ClickTag (tag : string)
| ClearAll.

Definition filter_step (f : Filters) (a : FilterAction) : Filters :=
  match a with
  | ClickAll => mkFilters None (activeLocation f) (activeTag f)
  | ClickCategory cat => mkFilters (Some cat) (activeLocation f) (activeTag f)
  | ClickTag tag =>
      mkFilters (activeCategory f) (activeLocation f)
        (match activeTag f with
         | Some t => if String.eqb t tag then None else Some tag
         | None => Some tag
         end)
  | ClearAll => mkFilters None None None
  end.

Definition run_actions (f : Filters) (actions : list FilterAction) : Filters :=
  fold_left filter_step actions f.

(** [set.add(x)] on a JS [Set] of strings, in insertion order. *)
Definition set_add (x : string) (s : list string) : list string :=
  if existsb (String.eqb x) s then s else (s ++ [x])%list.

(** The default comparator of [Array.prototype.sort] on strings: the order
    of the strings (here on the bytes of their UTF-8 encoding, that is by
    code point), as -1, 0 or 1. *)
Definition string_cmp (a b : string) : Z :=
  match String.compare a b with Lt => (-1)%Z | Eq => 0%Z | Gt => 1%Z end.

Record FilterOptions : Type := mkFilterOptions {
  opt_categories : list string;
  opt_locations : list string;
  opt_tags : list string
}.

(** The callback of [events.forEach] in [filterOptions]: the three sets
    [categories], [locations] and [tags]. *)
Definition add_event_options (acc : list string * list string * list string)
    (event : PageEvent) : list string * list string * list string :=
  let '(categories, locations, tags) := acc in
  (set_add (pe_category event) categories,
   fold_left (fun ls s => set_add (location s) ls) (pe_sessions event) locations,
   match pe_tags event with
   | Some ts => fold_left (fun tg t => set_add t tg) ts tags
   | None => tags
   end).

(** [filterOptions]: [Array.from(set).sort()] of each set. *)
Definition filterOptions (events : list PageEvent) : FilterOptions :=
  let '(categories, locations, tags) :=
    fold_left add_event_options events ([], [], []) in
  mkFilterOptions (array_sort string_cmp categories)
    (array_sort string_cmp locations) (array_sort string_cmp tags).

(** The error thrown by reading [.date] of [sessions[0]] when there is no
    session. *)
Definition no_session_error : thrown :=
  ErrorObj "Cannot read properties of undefined (reading 'date')".

(** The date line of an event card:
    [event.sessions[0].date[0] + `${event.sessions[0].date[1] ? ` ~ ${...}` : ''}`].
    A missing [date[0]] is [undefined], which [+] renders as "undefined". *)
Definition card_date_line (event : PageEvent) : outcome string :=
  match pe_sessions event with
  | [] => Rejected no_session_error
  | s :: _ =>
      let first := match date s with d :: _ => d | [] => "undefined" end in
      let second := match date s with
                    | _ :: d1 :: _ => if truthy_str d1 then " ~ " ++ d1 else ""
                    | _ => ""
                    end in
      Resolved (first ++ second)
  end.

(** [formatDate] of the [SidePanel] component ([src/unnamed/part_001]). *)
Module SidePanel.
Definition formatDate (dates : list string) : string :=
  match dates with
  | [d0] => d0
  | [d0; d1] => d0 ++ " ~ " ++ d1
  | _ => join ", " dates
  end.
End SidePanel.

(** [Array.prototype.sort] as in [array_sort], with a comparator that may
    throw: the first throw leaves the sort and rejects. *)
Section ArraySortM.
Variable A : Type.
Variable cmp : A -> A -> outcome Z.

Fixpoint run_tail_m (isDescending : bool) (previousElement : A) (l : list A)
    : outcome nat :=
  match l with
  | [] => Resolved O
  | currentElement :: rest =>
      order <- cmp currentElement previousElement ;;
      if (if isDescending then Z.geb order 0 else Z.ltb order 0) then Resolved O
      else n <- run_tail_m isDescending currentElement rest ;; Resolved (S n)
  end.

Fixpoint bs_loop_m (fuel : nat) (pivot : A) (arr : list A) (left right : nat)
    : outcome nat :=
  match fuel with
  | O => Resolved left
  | S f =>
      if Nat.ltb left right then
        let mid := left + (right - left) / 2 in
        order <- cmp pivot (nth mid arr pivot) ;;
        if Z.ltb order 0 then bs_loop_m f pivot arr left mid
        else bs_loop_m f pivot arr (S mid) right
      else Resolved left
  end.

Definition bin_insert_m (arr : list A) (pivot : A) : outcome (list A) :=
  left <- bs_loop_m (S (length arr)) pivot arr 0 (length arr) ;;
  Resolved (firstn left arr ++ pivot :: skipn left arr)%list.

Fixpoint binary_insertion_sort_m (sorted rest : list A) : outcome (list A) :=
  match rest with
  | [] => Resolved sorted
  | pivot :: rest' =>
      arr <- bin_insert_m sorted pivot ;; binary_insertion_sort_m arr rest'
  end.

Definition array_sort_m (l : list A) : outcome (list A) :=
  match l with
  | [] | [_] => Resolved l
  | elementLowPre :: elementLow :: rest =>
      order <- cmp elementLow elementLowPre ;;
      let isDescending := Z.ltb order 0 in
      n <- run_tail_m isDescending elementLow rest ;;
      let runLength := 2 + n in
      let run := firstn runLength l in
      let run' := if isDescending then rev run else run in
      binary_insertion_sort_m run' (skipn runLength l)
  end.

End ArraySortM.
Arguments run_tail_m {A} cmp isDescending previousElement l.
Arguments bs_loop_m {A} cmp fuel pivot arr left right.
Arguments bin_insert_m {A} cmp arr pivot.
Arguments binary_insertion_sort_m {A} cmp sorted rest.
Arguments array_sort_m {A} cmp l.

(** [new Date(a.sessions[0].date[0]).valueOf()] in the page: no optional
    chaining, so an event without a session throws; an empty date array
    gives [new Date(undefined)], NaN. *)
Definition page_date_value (parse_date : string -> option Z) (a : PageEvent)
    : outcome (option Z) :=
  match pe_sessions a with
  | [] => Rejected no_session_error
  | s :: _ => Resolved (match date s with [] => None | d :: _ => parse_date d end)
  end.

(** The comparator of [eventsList.sort] with [CallCompare] (NaN read as 0). *)
Definition page_compare (parse_date : string -> option Z) (a b : PageEvent)
    : outcome Z :=
  dateA <- page_date_value parse_date a ;;
  dateB <- page_date_value parse_date b ;;
  Resolved (match dateA, dateB with Some x, Some y => (x - y)%Z | _, _ => 0%Z end).

(** What [fetch] settles to: [response.ok] and the settled
    [response.json()], of which the page reads [data.events] ([None] when
    the body has no [events] member, or a null one). *)
Record FetchResponse : Type := mkFetchResponse {
  ok : bool;
  json_events : outcome (option (list PageEvent))
}.

(** [fetch(url, init)]: the URL and the JSON request body, if any. *)
Definition FetchFn : Type := string -> option json -> outcome FetchResponse.

(** The React state the page keeps for its data. *)
Record PageState : Type := mkPageState {
  events : list PageEvent;
  loading : bool;
  error : option string
}.

Definition initial_page_state : PageState := mkPageState [] true None.

Definition setEvents (l : list PageEvent) (st : PageState) : PageState :=
  mkPageState l (loading st) (error st).
Definition setError (e : string) (st : PageState) : PageState :=
  mkPageState (events st) (loading st) (Some e).
Definition setLoading (b : bool) (st : PageState) : PageState :=
  mkPageState (events st) b (error st).

(** The request body sent in development. *)
Definition dev_request_body : json := JObj [("prompt", JStr "查詢展覽")].

(** [localStorage.setItem('events', JSON.stringify(eventsList))], given the
    list it serializes; it throws when the browser refuses the storage
    (blocked, or over its quota). *)
Definition StorageFn : Type := list PageEvent -> outcome unit.

(** The [try] block of [fetchEvents]: the state it leaves, and what it
    throws, if anything. [setEvents] is called before [localStorage.setItem],
    so a throw of the latter leaves the events set. *)
Definition fetch_try (isDev : bool) (fetch : FetchFn) (setItem : StorageFn)
    (parse_date : string -> option Z) (st : PageState)
    : PageState * option thrown :=
  match fetch (if isDev then "/api/chat" else "./events.json")
              (if isDev then Some dev_request_body else None) with
  | Rejected t => (st, Some t)
  | Resolved response =>
      match json_events response with
      | Rejected t => (st, Some t)
      | Resolved data =>
          if negb (ok response) then (setError "無法載入活動資料" st, None)
          else
            let eventsList := match data with Some l => l | None => [] end in
            match array_sort_m (page_compare parse_date) eventsList with
            | Rejected t => (st, Some t)
            | Resolved sorted =>
                let st1 := setEvents sorted st in
                match setItem sorted with
                | Rejected t => (st1, Some t)
                | Resolved _ => (st1, None)
                end
            end
      end
  end.

(** [fetchEvents]: the [try], the [catch] and the [finally] blocks. *)
Definition fetchEvents (isDev : bool) (fetch : FetchFn) (setItem : StorageFn)
    (parse_date : string -> option Z) (st : PageState) : PageState :=
  let '(st1, thrown_value) := fetch_try isDev fetch setItem parse_date st in
  let st2 := match thrown_value with
             | Some _ => setError "無法連線到伺服器，請稍後再試。" st1
             | None => st1
             end in
  setLoading false st2.

(** A [Response] of [POST] as the page's [fetch] sees it: [ok] for a status
    in 200-299; the body [{ events }] of a success, or [{ error, message }]
    without [events]. *)
Definition response_to_fetch (r : Response) : FetchResponse :=
  mkFetchResponse (Z.leb 200 (status r) && Z.ltb (status r) 300)
    (Resolved (match body r with
               | BodyEvents evs => Some (map to_page_event evs)
               | BodyError _ _ => None
               end)).

(* ================================================================== *)
(** * Properties *)

(* ------------------------------------------------------------------ *)
(** ** Deduplication *)

Definition keys {V : Type} (m : JsMap V) : list string := map fst m.

Definition notin (ks : list string) (x : string) : bool :=
  negb (existsb (String.eqb x) ks).

Lemma filter_filter_and {T : Type} (f g : T -> bool) (l : list T) :
  filter f (filter g l) = filter (fun x => g x && f x) l.
Proof.
  induction l as [|x l IH]; simpl; [reflexivity|].
  destruct (g x); simpl; [destruct (f x); simpl|]; rewrite IH; reflexivity.
Qed.

Lemma map_set_keys {V : Type} (k : string) (v : V) (m : JsMap V) :
  keys (map_set k v m) =
  if existsb (String.eqb k) (keys m) then keys m else (keys m ++ [k])%list.
Proof.
  unfold keys; induction m as [|[k' v'] m IH]; simpl; [reflexivity|].
  destruct (String.eqb k k'); simpl; [reflexivity|].
  rewrite IH. destruct (existsb (String.eqb k) (map fst m)); reflexivity.
Qed.

Lemma map_get_set {V : Type} (k k' : string) (v : V) (m : JsMap V) :
  map_get k (map_set k' v m) =
  if String.eqb k k' then Some v else map_get k m.
Proof.
  induction m as [|[k0 v0] m IH]; simpl.
  - reflexivity.
  - destruct (String.eqb_spec k' k0) as [->|Hne]; simpl.
    + destruct (String.eqb k k0); reflexivity.
    + rewrite IH. destruct (String.eqb_spec k k') as [->|]; [|reflexivity].
      destruct (String.eqb_spec k' k0); [contradiction|reflexivity].
Qed.

Definition map_step {V : Type} (m : JsMap V) (kv : string * V) : JsMap V :=
  map_set (fst kv) (snd kv) m.

Lemma fold_keys {V : Type} (es : list (string * V)) (m : JsMap V) :
  keys (fold_left map_step es m) =
  (keys m ++ filter (notin (keys m)) (firsts (map fst es)))%list.
Proof.
  revert m; induction es as [|[k v] es IH]; intro m; simpl.
  - rewrite app_nil_r. reflexivity.
  - rewrite IH. unfold map_step; simpl. rewrite map_set_keys.
    change (notin (keys m) k) with (negb (existsb (String.eqb k) (keys m))).
    destruct (existsb (String.eqb k) (keys m)) eqn:Hk; simpl.
    + f_equal. rewrite filter_filter_and. apply filter_ext. intro x.
      destruct (String.eqb_spec k x) as [->|]; simpl; [|reflexivity].
      unfold notin. rewrite Hk. reflexivity.
    + rewrite <- app_assoc. simpl. f_equal. f_equal.
      rewrite filter_filter_and. apply filter_ext. intro x.
      unfold notin. rewrite existsb_app. simpl.
      destruct (String.eqb_spec k x) as [<-|Hne].
      * rewrite String.eqb_refl. simpl. rewrite orb_true_r. reflexivity.
      * rewrite (proj2 (String.eqb_neq x k)) by congruence. simpl.
        rewrite orb_false_r. reflexivity.
Qed.

Lemma fold_get (k : string) (l : list RawHit) (m : JsMap RawHit) :
  map_get k (fold_left map_step (map (fun item => (url item, item)) l) m) =
  match last_occ k l with Some h => Some h | None => map_get k m end.
Proof.
  revert m; induction l as [|h l IH]; intro m; simpl; [reflexivity|].
  rewrite IH. destruct (last_occ k l); [reflexivity|].
  unfold map_step; simpl. rewrite map_get_set.
  destruct (String.eqb_spec k (url h)) as [Heq|Hne];
    destruct (String.eqb_spec (url h) k); congruence.
Qed.

Definition keyed (m : JsMap RawHit) : Prop :=
  Forall (fun kv => url (snd kv) = fst kv) m.

Lemma map_set_keyed (h : RawHit) (m : JsMap RawHit) :
  keyed m -> keyed (map_set (url h) h m).
Proof.
  unfold keyed; induction 1 as [|[k v] m Hkv Hm IH]; simpl.
  - constructor; [reflexivity|constructor].
  - simpl in Hkv. destruct (String.eqb_spec (url h) k) as [Heq|].
    + constructor; [exact Heq|assumption].
    + constructor; assumption.
Qed.

Lemma fold_keyed (l : list RawHit) (m : JsMap RawHit) :
  keyed m -> keyed (fold_left map_step (map (fun item => (url item, item)) l) m).
Proof.
  revert m; induction l as [|h l IH]; intros m Hm; simpl; [assumption|].
  apply IH. apply map_set_keyed. assumption.
Qed.

Lemma keyed_values (m : JsMap RawHit) :
  keyed m -> map url (map_values m) = keys m.
Proof.
  unfold keyed, map_values, keys; induction 1; simpl; congruence.
Qed.

Lemma firsts_In (k : string) (xs : list string) : In k (firsts xs) <-> In k xs.
Proof.
  induction xs as [|x xs IH]; simpl; [tauto|].
  rewrite filter_In, IH. destruct (String.eqb_spec x k); simpl; intuition.
Qed.

Lemma firsts_NoDup (xs : list string) : NoDup (firsts xs).
Proof.
  induction xs as [|x xs IH]; simpl; constructor.
  - rewrite filter_In. rewrite String.eqb_refl. simpl. intuition discriminate.
  - apply NoDup_filter. assumption.
Qed.

Lemma filter_notin_nil (l : list string) : filter (notin []) l = l.
Proof. induction l; simpl; congruence. Qed.

Lemma dedup_links (l : list RawHit) : map url (dedup l) = firsts (map url l).
Proof.
  unfold dedup, new_map.
  change (fun m kv => map_set (fst kv) (snd kv) m) with (@map_step RawHit).
  rewrite keyed_values by (apply fold_keyed; constructor).
  rewrite fold_keys. simpl. rewrite map_map. simpl.
  apply filter_notin_nil.
Qed.

Lemma get_In_NoDup (k : string) (v : RawHit) (m : JsMap RawHit) :
  NoDup (keys m) -> In (k, v) m -> map_get k m = Some v.
Proof.
  unfold keys; induction m as [|[k' v'] m IH]; simpl; [contradiction|].
  intros Hnd [Heq|Hin]; inversion Hnd as [|? ? Hnotin Hnd']; subst.
  - inversion Heq; subst. rewrite String.eqb_refl. reflexivity.
  - destruct (String.eqb_spec k k') as [->|].
    + exfalso. apply Hnotin. apply (in_map fst) in Hin. exact Hin.
    + apply IH; assumption.
Qed.

Lemma dedup_keys_NoDup (l : list RawHit) :
  NoDup (keys (new_map (map (fun item => (url item, item)) l))).
Proof.
  unfold new_map.
  change (fun m kv => map_set (fst kv) (snd kv) m) with (@map_step RawHit).
  rewrite fold_keys. simpl. rewrite filter_notin_nil. apply firsts_NoDup.
Qed.

(** C1. For every sequence of raw hits, the deduplicated list holds exactly
    one entry per distinct link (no link twice, and the same links as the
    input), and each entry is the last hit of the input with its link. *)
Theorem dedup_one_entry_per_link_last_wins (l : list RawHit) :
  NoDup (map url (dedup l))
  /\ (forall k, In k (map url (dedup l)) <-> In k (map url l))
  /\ (forall h, In h (dedup l) -> last_occ (url h) l = Some h).
Proof.
  split; [|split].
  - rewrite dedup_links. apply firsts_NoDup.
  - intro k. rewrite dedup_links. apply firsts_In.
  - intros h Hin. unfold dedup, map_values in Hin.
    apply in_map_iff in Hin as [[k v] [Hv Hkv]]. simpl in Hv; subst v.
    pose proof (fold_keyed l [] (Forall_nil _)) as Hkeyed.
    unfold new_map in Hkv.
    change (fun m kv => map_set (fst kv) (snd kv) m) with (@map_step RawHit) in Hkv.
    assert (Hurl : url h = k).
    { unfold keyed in Hkeyed. rewrite Forall_forall in Hkeyed.
      exact (Hkeyed (k, h) Hkv). }
    pose proof (dedup_keys_NoDup l) as Hnd. unfold new_map in Hnd.
    change (fun m kv => map_set (fst kv) (snd kv) m) with (@map_step RawHit) in Hnd.
    pose proof (get_In_NoDup k h _ Hnd Hkv) as Hget.
    rewrite fold_get in Hget. rewrite Hurl.
    destruct (last_occ k l); [exact Hget|discriminate].
Qed.

(** C10. The deduplicated list lists its links in the order of the first
    occurrence of each distinct link in the flattened input. *)
Theorem dedup_first_occurrence_order (l : list RawHit) :
  map url (dedup l) = firsts (map url l).
Proof. apply dedup_links. Qed.

(* ------------------------------------------------------------------ *)
(** ** Search fan-out *)

(** What one site contributes: its results, or nothing when its search
    throws. *)
Definition site_results (search : SearchFn) (searchString : string) (site : Site)
    : list RawHit :=
  match search (site_query searchString site) (site_options site) with
  | Resolved results => results
  | Rejected _ => []
  end.

Lemma search_site_resolved (search : SearchFn) (ss : string) (site : Site) :
  search_site search ss site = Resolved (site_results search ss site).
Proof.
  unfold search_site, site_results.
  destruct (search (site_query ss site) (site_options site)); reflexivity.
Qed.

Lemma promise_all_resolved {A : Type} (l : list A) :
  promise_all (map Resolved l) = Resolved l.
Proof. induction l as [|a l IH]; simpl; [|rewrite IH]; reflexivity. Qed.

Lemma collect_resolved (search : SearchFn) (ss : string) (sites : list Site) :
  collect search ss sites = Resolved (concat (map (site_results search ss) sites)).
Proof.
  unfold collect.
  replace (map (search_site search ss) sites)
    with (map Resolved (map (site_results search ss) sites)).
  - rewrite promise_all_resolved. reflexivity.
  - rewrite map_map. apply map_ext. intro site.
    rewrite search_site_resolved. reflexivity.
Qed.

(** C2. For any list of sites, when the search of one site throws, the fan-out
    still resolves (the batch goes on), that site contributes nothing, and the
    merged hits are the concatenation of the other sites' results, in order. *)
Theorem search_failure_isolated (search : SearchFn) (ss : string)
    (pre post : list Site) (site : Site) (e : thrown)
    (Hfail : search (site_query ss site) (site_options site) = Rejected e) :
  site_results search ss site = []
  /\ collect search ss (pre ++ site :: post)
     = Resolved (concat (map (site_results search ss) pre)
                 ++ concat (map (site_results search ss) post))%list.
Proof.
  split.
  - unfold site_results. rewrite Hfail. reflexivity.
  - rewrite collect_resolved, map_app, concat_app. simpl.
    unfold site_results at 2. rewrite Hfail. reflexivity.
Qed.

Definition hit_ex (u : string) : RawHit := mkRawHit u "t" "c".

(** A search that throws for KKTIX and returns one hit for every other site. *)
Definition search_ex : SearchFn :=
  fun query _ =>
    if String.eqb query (site_query "q" (mkSite "KKTIX" "kktix.com"))
    then Rejected (ErrorObj "network error")
    else Resolved [hit_ex query].

Lemma search_failure_isolated_witness :
  search_ex (site_query "q" (mkSite "KKTIX" "kktix.com"))
            (site_options (mkSite "KKTIX" "kktix.com"))
  = Rejected (ErrorObj "network error")
  /\ site_results search_ex "q" (mkSite "KKTIX" "kktix.com") = []
  /\ collect search_ex "q" ([] ++ mkSite "KKTIX" "kktix.com" :: tl TARGET_SITES)
     = Resolved (concat (map (site_results search_ex "q") [])
                 ++ concat (map (site_results search_ex "q") (tl TARGET_SITES)))%list.
Proof.
  assert (H : search_ex (site_query "q" (mkSite "KKTIX" "kktix.com"))
            (site_options (mkSite "KKTIX" "kktix.com"))
            = Rejected (ErrorObj "network error")) by reflexivity.
  split; [exact H|].
  exact (search_failure_isolated search_ex "q" [] (tl TARGET_SITES)
           (mkSite "KKTIX" "kktix.com") (ErrorObj "network error") H).
Defined.

(* ------------------------------------------------------------------ *)
(** ** The sort: permutation, and order under a consistent comparator *)

Section SortFacts.
Local Open Scope list_scope.
Variable A : Type.
Variable cmp : A -> A -> Z.

Lemma bin_insert_perm (arr : list A) (pivot : A) :
  Permutation (pivot :: arr) (bin_insert cmp arr pivot).
Proof.
  unfold bin_insert.
  set (p := bs_loop cmp (S (length arr)) pivot arr 0 (length arr)).
  rewrite <- (firstn_skipn p arr) at 1. apply Permutation_middle.
Qed.

Lemma binary_insertion_sort_perm (rest sorted : list A) :
  Permutation (sorted ++ rest) (binary_insertion_sort cmp sorted rest).
Proof.
  unfold binary_insertion_sort.
  revert sorted; induction rest as [|x rest IH]; intro sorted; simpl.
  - rewrite app_nil_r. reflexivity.
  - rewrite <- IH. rewrite <- Permutation_middle.
    change (x :: sorted ++ rest) with ((x :: sorted) ++ rest).
    apply Permutation_app_tail. apply bin_insert_perm.
Qed.

Lemma array_sort_perm (l : list A) : Permutation l (array_sort cmp l).
Proof.
  destruct l as [|a0 [|a1 rest]]; [reflexivity|reflexivity|].
  unfold array_sort.
  set (n := 2 + run_tail cmp (Z.ltb (cmp a1 a0) 0) a1 rest).
  rewrite <- binary_insertion_sort_perm.
  rewrite <- (firstn_skipn n (a0 :: a1 :: rest)) at 1.
  apply Permutation_app_tail.
  destruct (Z.ltb (cmp a1 a0) 0); [apply Permutation_rev|reflexivity].
Qed.

Lemma Forall_perm (Q : A -> Prop) (l l' : list A) :
  Permutation l l' -> Forall Q l -> Forall Q l'.
Proof.
  intros Hp H. rewrite Forall_forall in *. intros x Hx.
  apply H. apply (Permutation_in x (Permutation_sym Hp) Hx).
Qed.

(** From here on the comparator is consistent on the elements satisfying
    [P]: it is the difference of their integer keys. *)
Variable key : A -> Z.
Variable P : A -> Prop.
Hypothesis Hcmp : forall a b, P a -> P b -> cmp a b = (key a - key b)%Z.

Definition key_le (a b : A) : Prop := (key a <= key b)%Z.
Definition key_gt (a b : A) : Prop := (key b < key a)%Z.

Lemma key_le_trans : Transitive key_le.
Proof. unfold key_le; intros x y z; lia. Qed.

Lemma key_gt_trans : Transitive key_gt.
Proof. unfold key_gt; intros x y z; lia. Qed.

Lemma run_asc (prev : A) (l : list A) :
  P prev -> Forall P l ->
  Sorted key_le (prev :: firstn (run_tail cmp false prev l) l).
Proof.
  revert prev; induction l as [|x l IH]; intros prev Hp Hl; simpl.
  - repeat constructor.
  - inversion Hl as [|? ? Hx Hl']; subst.
    rewrite (Hcmp x prev Hx Hp).
    destruct (Z.ltb_spec (key x - key prev) 0); simpl.
    + repeat constructor.
    + constructor; [apply IH; assumption|].
      constructor. unfold key_le; lia.
Qed.

Lemma run_desc (prev : A) (l : list A) :
  P prev -> Forall P l ->
  Sorted key_gt (prev :: firstn (run_tail cmp true prev l) l).
Proof.
  revert prev; induction l as [|x l IH]; intros prev Hp Hl; simpl.
  - repeat constructor.
  - inversion Hl as [|? ? Hx Hl']; subst.
    rewrite (Hcmp x prev Hx Hp).
    destruct (Z.geb_spec (key x - key prev) 0); simpl.
    + repeat constructor.
    + constructor; [apply IH; assumption|].
      constructor. unfold key_gt; lia.
Qed.

Lemma SS_app_single (l : list A) (a : A) :
  StronglySorted key_le l -> (forall x, In x l -> key_le x a) ->
  StronglySorted key_le (l ++ [a]).
Proof.
  induction l as [|y l IH]; intros Hs Ha; simpl.
  - repeat constructor.
  - inversion Hs as [|? ? Hs' Hf]; subst. constructor.
    + apply IH; [assumption|]. intros x Hx. apply Ha. right. assumption.
    + apply Forall_app. split; [assumption|].
      constructor; [apply Ha; left; reflexivity|constructor].
Qed.

Lemma SS_rev (l : list A) :
  StronglySorted key_gt l -> StronglySorted key_le (rev l).
Proof.
  induction l as [|a l IH]; intro Hs; simpl; [constructor|].
  inversion Hs as [|? ? Hs' Hf]; subst.
  apply SS_app_single; [apply IH; assumption|].
  intros x Hx. apply in_rev in Hx. rewrite Forall_forall in Hf.
  specialize (Hf x Hx). unfold key_gt, key_le in *. lia.
Qed.

Lemma SS_insert_mid (l1 l2 : list A) (x : A) :
  StronglySorted key_le (l1 ++ l2) ->
  Forall (fun y => key_le y x) l1 -> Forall (fun y => key_le x y) l2 ->
  StronglySorted key_le (l1 ++ x :: l2).
Proof.
  induction l1 as [|a l1 IH]; intros Hs H1 H2; simpl in *.
  - constructor; assumption.
  - inversion Hs as [|? ? Hs' Hf]; subst. inversion H1 as [|? ? Hax H1']; subst.
    constructor; [apply IH; assumption|].
    apply Forall_app in Hf as [Hf1 Hf2].
    apply Forall_app. split; [assumption|]. constructor; assumption.
Qed.

Lemma SS_skipn (arr : list A) (d : A) (mid : nat) :
  StronglySorted key_le arr -> mid < length arr ->
  forall y, In y (skipn mid arr) -> key_le (nth mid arr d) y.
Proof.
  revert mid; induction arr as [|a arr IH]; intros mid Hs Hlt y Hy;
    simpl in Hlt; [lia|].
  inversion Hs as [|? ? Hs' Hf]; subst.
  destruct mid as [|m]; simpl in *.
  - destruct Hy as [<-|Hy]; [unfold key_le; lia|].
    rewrite Forall_forall in Hf. apply Hf. assumption.
  - apply IH; [assumption|lia|assumption].
Qed.

Lemma SS_firstn (arr : list A) (d : A) (mid : nat) :
  StronglySorted key_le arr -> mid < length arr ->
  forall x, In x (firstn (S mid) arr) -> key_le x (nth mid arr d).
Proof.
  revert mid; induction arr as [|a arr IH]; intros mid Hs Hlt x Hx;
    simpl in Hlt; [lia|].
  inversion Hs as [|? ? Hs' Hf]; subst.
  destruct mid as [|m]; simpl in *.
  - destruct Hx as [<-|[]]. unfold key_le; lia.
  - destruct Hx as [<-|Hx].
    + rewrite Forall_forall in Hf. apply Hf. apply nth_In. lia.
    + apply IH; [assumption|lia|assumption].
Qed.

Lemma bs_loop_spec (fuel : nat) (pivot : A) (arr : list A) (left right : nat) :
  StronglySorted key_le arr -> Forall P arr -> P pivot ->
  left <= right <= length arr -> right - left < fuel ->
  Forall (fun x => key_le x pivot) (firstn left arr) ->
  Forall (fun y => (key pivot < key y)%Z) (skipn right arr) ->
  let p := bs_loop cmp fuel pivot arr left right in
  Forall (fun x => key_le x pivot) (firstn p arr)
  /\ Forall (fun y => (key pivot < key y)%Z) (skipn p arr).
Proof.
  revert left right; induction fuel as [|f IH];
    intros left right Hs HP Hpv Hb Hf Hl Hr; cbv zeta; cbn [bs_loop]; [lia|].
  destruct (Nat.ltb_spec left right) as [Hlt|Hge].
  - set (mid := left + (right - left) / 2).
    assert (Hmid : left <= mid < right).
    { unfold mid. split; [lia|].
      assert ((right - left) / 2 < right - left) by (apply Nat.div_lt; lia).
      lia. }
    assert (HPm : P (nth mid arr pivot)).
    { rewrite Forall_forall in HP. apply HP. apply nth_In. lia. }
    rewrite (Hcmp pivot (nth mid arr pivot) Hpv HPm).
    destruct (Z.ltb_spec (key pivot - key (nth mid arr pivot)) 0).
    + apply IH; try assumption; try lia.
      rewrite Forall_forall. intros y Hy.
      pose proof (SS_skipn arr pivot mid Hs ltac:(lia) y Hy) as Hle.
      unfold key_le in Hle. lia.
    + apply IH; try assumption; try lia.
      rewrite Forall_forall. intros x Hx.
      pose proof (SS_firstn arr pivot mid Hs ltac:(lia) x Hx) as Hle.
      unfold key_le in *. lia.
  - assert (left = right) by lia. subst right. split; assumption.
Qed.

Lemma bin_insert_sorted (arr : list A) (pivot : A) :
  StronglySorted key_le arr -> Forall P arr -> P pivot ->
  StronglySorted key_le (bin_insert cmp arr pivot).
Proof.
  intros Hs HP Hpv. unfold bin_insert.
  destruct (bs_loop_spec (S (length arr)) pivot arr 0 (length arr) Hs HP Hpv
              ltac:(lia) ltac:(lia) ltac:(constructor)
              ltac:(rewrite skipn_all; constructor)) as [H1 H2].
  apply SS_insert_mid.
  - rewrite firstn_skipn. assumption.
  - assumption.
  - rewrite Forall_forall in *. intros y Hy. specialize (H2 y Hy).
    unfold key_le. lia.
Qed.

Lemma binary_insertion_sort_sorted (rest sorted : list A) :
  StronglySorted key_le sorted -> Forall P sorted -> Forall P rest ->
  StronglySorted key_le (binary_insertion_sort cmp sorted rest).
Proof.
  unfold binary_insertion_sort.
  revert sorted; induction rest as [|x rest IH]; intros sorted Hs HP Hr;
    simpl; [assumption|].
  inversion Hr as [|? ? Hx Hr']; subst.
  apply IH; [apply bin_insert_sorted; assumption| |assumption].
  apply (Forall_perm P (x :: sorted)); [apply bin_insert_perm|].
  constructor; assumption.
Qed.

Lemma in_firstn_in (n : nat) (l : list A) (x : A) : In x (firstn n l) -> In x l.
Proof.
  intro H. rewrite <- (firstn_skipn n l). apply in_or_app. left. exact H.
Qed.

Lemma in_skipn_in (n : nat) (l : list A) (x : A) : In x (skipn n l) -> In x l.
Proof.
  intro H. rewrite <- (firstn_skipn n l). apply in_or_app. right. exact H.
Qed.

(** With a comparator consistent on all elements, the sort orders them by
    key. *)
Lemma array_sort_sorted (l : list A) :
  Forall P l -> StronglySorted key_le (array_sort cmp l).
Proof.
  intro HP.
  destruct l as [|a0 [|a1 rest]]; [constructor|repeat constructor|].
  inversion HP as [|? ? Ha0 HP1]; inversion HP1 as [|? ? Ha1 Hrest]; subst.
  unfold array_sort.
  rewrite (Hcmp a1 a0 Ha1 Ha0).
  apply binary_insertion_sort_sorted.
  - destruct (Z.ltb_spec (key a1 - key a0) 0).
    + apply SS_rev. apply Sorted_StronglySorted; [apply key_gt_trans|].
      simpl. constructor; [apply run_desc; assumption|].
      constructor. unfold key_gt; lia.
    + apply Sorted_StronglySorted; [apply key_le_trans|].
      simpl. constructor; [apply run_asc; assumption|].
      constructor. unfold key_le; lia.
  - apply (Forall_perm P (firstn (2 + run_tail cmp (Z.ltb (key a1 - key a0) 0) a1 rest)
                            (a0 :: a1 :: rest))).
    + destruct (Z.ltb (key a1 - key a0) 0); [apply Permutation_rev|reflexivity].
    + apply Forall_forall. intros x Hx. apply in_firstn_in in Hx.
      rewrite Forall_forall in HP. apply HP. assumption.
  - apply Forall_forall. intros x Hx. apply in_skipn_in in Hx.
    rewrite Forall_forall in HP. apply HP. assumption.
Qed.

End SortFacts.

(* ------------------------------------------------------------------ *)
(** ** Sorting and publishing the extracted events *)

(** Calendar-date order of two events by [sessions[0].date[0]]; an event
    without a parseable leading date is comparable to nothing. *)
Definition date_le (parse_date : string -> option Z) (a b : Event) : Prop :=
  match first_date_value parse_date a, first_date_value parse_date b with
  | Some x, Some y => (x <= y)%Z
  | _, _ => False
  end.

Definition date_key (parse_date : string -> option Z) (e : Event) : Z :=
  match first_date_value parse_date e with Some x => x | None => 0%Z end.

Definition has_date (parse_date : string -> option Z) (e : Event) : Prop :=
  first_date_value parse_date e <> None.

Lemma call_compare_consistent (parse_date : string -> option Z) (a b : Event) :
  has_date parse_date a -> has_date parse_date b ->
  call_compare (compare_events parse_date) a b
  = (date_key parse_date a - date_key parse_date b)%Z.
Proof.
  unfold has_date, call_compare, compare_events, date_key.
  destruct (first_date_value parse_date a); [|congruence].
  destruct (first_date_value parse_date b); [|congruence].
  reflexivity.
Qed.

Lemma SS_date_le (parse_date : string -> option Z) (l : list Event) :
  StronglySorted (key_le Event (date_key parse_date)) l ->
  Forall (has_date parse_date) l -> Sorted (date_le parse_date) l.
Proof.
  induction l as [|a l IH]; intros Hs HP; constructor.
  - inversion Hs; inversion HP; subst. apply IH; assumption.
  - inversion Hs as [|? ? Hs' Hf]; inversion HP as [|? ? Ha HP']; subst.
    destruct l as [|b l]; constructor.
    inversion Hf as [|? ? Hab _]; inversion HP' as [|? ? Hb _]; subst.
    unfold key_le, date_key, has_date in *. unfold date_le.
    destruct (first_date_value parse_date a); [|congruence].
    destruct (first_date_value parse_date b); [|congruence].
    exact Hab.
Qed.

Lemma main_extract (parse_date : string -> option Z) (now : LocalDate)
    (search : SearchFn) (generate : GenerateFn) (writeFileSync : WriteFn)
    (events : list Event) :
  extract main_prompt now search generate = Resolved events ->
  main parse_date now search generate writeFileSync
  = match writeFileSync (sort_events parse_date events) with
    | Resolved _ => Resolved (sort_events parse_date events)
    | Rejected t => Rejected t
    end.
Proof.
  intro H. unfold main. rewrite H. simpl.
  destruct (writeFileSync (sort_events parse_date events)); reflexivity.
Qed.

(** Concrete extraction results for the examples below. *)
Definition session_json (dates : list string) : json :=
  JObj [("location", JStr "台北小巨蛋"); ("date", JArr (map JStr dates));
        ("url", JStr "https://kktix.com/s")].

Definition event_json (t : string) (ss : list json) : json :=
  JObj [("description", JStr "d"); ("title", JStr t); ("sessions", JArr ss);
        ("category", JStr "演唱會"); ("url", JStr "https://kktix.com/e");
        ("source", JStr "KKTIX")].

Definition generate_const (j : json) : GenerateFn := fun _ _ => Resolved j.
Definition search_none : SearchFn := fun _ _ => Resolved [].
Definition write_ok : WriteFn := fun _ => Resolved tt.
Definition now_ex : LocalDate := mkLocalDate 2025 11 15.

Definition event_ex (t : string) (ss : list Session) : Event :=
  mkEvent "d" t None ss Concert None "https://kktix.com/e" Src_KKTIX.
Definition session_ex (dates : list string) : Session :=
  mkSession "台北小巨蛋" dates "https://kktix.com/s".

(** The extraction returns: A on 2026-03-01, B with no session, C on
    2026-01-01. *)
Definition unordered_json : json :=
  JObj [("events", JArr [event_json "A" [session_json ["2026-03-01"]];
                         event_json "B" [];
                         event_json "C" [session_json ["2026-01-01"]]])].

(** C3 (counterexample). With an event lacking a leading date between two
    dated ones, the comparator answers NaN (read as 0) against it, V8's run
    detection takes the whole array as already ordered, and the written
    collection keeps 2026-03-01 before 2026-01-01. *)
Lemma main_sort_unordered_counterexample :
  main iso_parse_date now_ex search_none (generate_const unordered_json) write_ok
  = Resolved [event_ex "A" [session_ex ["2026-03-01"]]; event_ex "B" [];
              event_ex "C" [session_ex ["2026-01-01"]]]
  /\ first_date_value iso_parse_date (event_ex "A" [session_ex ["2026-03-01"]])
     = Some 1772323200000%Z
  /\ first_date_value iso_parse_date (event_ex "C" [session_ex ["2026-01-01"]])
     = Some 1767225600000%Z
  /\ (1767225600000 < 1772323200000)%Z.
Proof. vm_compute. repeat split. Qed.

(** C3 (amended). When every event returned by the extraction step has a
    leading date [sessions[0].date[0]] that the date parser accepts, the
    collection written by [main] is non-decreasing by that date, whatever
    the parser. *)
Theorem main_sorted_when_dates_valid (parse_date : string -> option Z)
    (now : LocalDate) (search : SearchFn) (generate : GenerateFn)
    (writeFileSync : WriteFn) (events out : list Event)
    (Hext : extract main_prompt now search generate = Resolved events)
    (Hdates : Forall (has_date parse_date) events)
    (Hmain : main parse_date now search generate writeFileSync = Resolved out) :
  Sorted (date_le parse_date) out.
Proof.
  rewrite (main_extract parse_date now search generate writeFileSync events Hext)
    in Hmain.
  destruct (writeFileSync (sort_events parse_date events)) as [u|t];
    [|discriminate].
  inversion Hmain; subst out. unfold sort_events.
  apply SS_date_le.
  - apply (array_sort_sorted Event _ (date_key parse_date) (has_date parse_date)).
    + intros a b Ha Hb. apply call_compare_consistent; assumption.
    + exact Hdates.
  - apply (Forall_perm Event (has_date parse_date) events); [|exact Hdates].
    apply array_sort_perm.
Qed.

Definition ordered_json : json :=
  JObj [("events", JArr [event_json "A" [session_json ["2026-03-01"]];
                         event_json "C" [session_json ["2026-01-01"]];
                         event_json "D" [session_json ["2026-02-01"; "2026-02-05"]]])].

Lemma main_sorted_when_dates_valid_witness :
  extract main_prompt now_ex search_none (generate_const ordered_json)
  = Resolved [event_ex "A" [session_ex ["2026-03-01"]];
              event_ex "C" [session_ex ["2026-01-01"]];
              event_ex "D" [session_ex ["2026-02-01"; "2026-02-05"]]]
  /\ main iso_parse_date now_ex search_none (generate_const ordered_json) write_ok
     = Resolved [event_ex "C" [session_ex ["2026-01-01"]];
                 event_ex "D" [session_ex ["2026-02-01"; "2026-02-05"]];
                 event_ex "A" [session_ex ["2026-03-01"]]]
  /\ Sorted (date_le iso_parse_date)
       [event_ex "C" [session_ex ["2026-01-01"]];
        event_ex "D" [session_ex ["2026-02-01"; "2026-02-05"]];
        event_ex "A" [session_ex ["2026-03-01"]]].
Proof.
  assert (He : extract main_prompt now_ex search_none (generate_const ordered_json)
    = Resolved [event_ex "A" [session_ex ["2026-03-01"]];
                event_ex "C" [session_ex ["2026-01-01"]];
                event_ex "D" [session_ex ["2026-02-01"; "2026-02-05"]]])
    by (vm_compute; reflexivity).
  assert (Hm : main iso_parse_date now_ex search_none (generate_const ordered_json)
                   write_ok
     = Resolved [event_ex "C" [session_ex ["2026-01-01"]];
                 event_ex "D" [session_ex ["2026-02-01"; "2026-02-05"]];
                 event_ex "A" [session_ex ["2026-03-01"]]])
    by (vm_compute; reflexivity).
  split; [exact He|split; [exact Hm|]].
  apply (main_sorted_when_dates_valid iso_parse_date now_ex search_none
           (generate_const ordered_json) write_ok _ _ He); [|exact Hm].
  repeat constructor; unfold has_date; vm_compute; discriminate.
Defined.

(** C7. The array [main] hands to [writeFileSync] is a permutation of the
    event list returned by the extraction step (nothing added, dropped or
    changed, no local filter). When the write succeeds, that array is what
    the run publishes and the run exits with 0; when the write throws,
    [main] rejects with that error, nothing is published and the run exits
    with 1. [POST] answers with the extracted list exactly as extracted. *)
Theorem published_is_permutation (parse_date : string -> option Z)
    (now : LocalDate) (search : SearchFn) (generate : GenerateFn)
    (writeFileSync : WriteFn) (events : list Event)
    (Hext : extract main_prompt now search generate = Resolved events) :
  (exists out, Permutation events out
     /\ main parse_date now search generate writeFileSync
        = match writeFileSync out with
          | Resolved _ => Resolved out
          | Rejected t => Rejected t
          end
     /\ run_batch parse_date now search generate writeFileSync
        = match writeFileSync out with
          | Resolved _ => mkBatchResult (Some out) 0
          | Rejected _ => mkBatchResult None 1
          end)
  /\ (forall v prompt events',
        destructure_prompt v = Resolved prompt ->
        extract post_prompt now search generate = Resolved events' ->
        POST (Resolved v) now search generate
        = mkResponse 200 (BodyEvents events')).
Proof.
  split.
  - exists (sort_events parse_date events).
    pose proof (main_extract parse_date now search generate writeFileSync events Hext)
      as Hm.
    split; [apply array_sort_perm|split; [exact Hm|]].
    unfold run_batch. rewrite Hm.
    destruct (writeFileSync (sort_events parse_date events)); reflexivity.
  - intros v prompt events' Hd He. unfold POST, post_try. simpl.
    rewrite Hd. simpl. rewrite He. reflexivity.
Qed.

(** A write of [public/events.json] that throws. *)
Definition write_fail : WriteFn :=
  fun _ => Rejected (ErrorObj "EACCES: permission denied, open 'public/events.json'").

Lemma published_is_permutation_witness :
  extract main_prompt now_ex search_none (generate_const unordered_json)
  = Resolved [event_ex "A" [session_ex ["2026-03-01"]]; event_ex "B" [];
              event_ex "C" [session_ex ["2026-01-01"]]]
  /\ ((exists out, Permutation [event_ex "A" [session_ex ["2026-03-01"]]; event_ex "B" [];
                                event_ex "C" [session_ex ["2026-01-01"]]] out
        /\ main iso_parse_date now_ex search_none (generate_const unordered_json)
             write_fail
           = match write_fail out with
             | Resolved _ => Resolved out
             | Rejected t => Rejected t
             end
        /\ run_batch iso_parse_date now_ex search_none (generate_const unordered_json)
             write_fail
           = match write_fail out with
             | Resolved _ => mkBatchResult (Some out) 0
             | Rejected _ => mkBatchResult None 1
             end)
      /\ (forall v prompt events',
            destructure_prompt v = Resolved prompt ->
            extract post_prompt now_ex search_none (generate_const unordered_json)
            = Resolved events' ->
            POST (Resolved v) now_ex search_none (generate_const unordered_json)
            = mkResponse 200 (BodyEvents events'))).
Proof.
  assert (He : extract main_prompt now_ex search_none (generate_const unordered_json)
    = Resolved [event_ex "A" [session_ex ["2026-03-01"]]; event_ex "B" [];
                event_ex "C" [session_ex ["2026-01-01"]]])
    by (vm_compute; reflexivity).
  split; [exact He|].
  exact (published_is_permutation iso_parse_date now_ex search_none
           (generate_const unordered_json) write_fail _ He).
Defined.

(* ------------------------------------------------------------------ *)
(** ** Error responses of [POST] *)

Definition message_of (t : thrown) : string :=
  match t with ErrorObj m => m | OtherValue r => r end.

Definition error_code (r : Response) : option string :=
  match body r with BodyError c _ => Some c | BodyEvents _ => None end.

Lemma extract_generate_rejects (prompt_of : string -> string -> string -> string)
    (now : LocalDate) (search : SearchFn) (generate : GenerateFn) (t : thrown) :
  (forall model prompt, generate model prompt = Rejected t) ->
  extract prompt_of now search generate = Rejected t.
Proof.
  intro Hgen. unfold extract. rewrite collect_resolved. simpl.
  unfold generate_object. rewrite Hgen. reflexivity.
Qed.

Definition exceeded_msg : string := "Resource has been exhausted: rate limit exceeded".

(** C4 (counterexample). An extraction error whose message contains neither
    "429" nor "quota" but contains "exceeded" is answered with 429 and
    [QUOTA_EXCEEDED], not 500. *)
Lemma quota_classification_counterexample :
  includes exceeded_msg "429" = false
  /\ includes exceeded_msg "quota" = false
  /\ POST (Resolved (JObj [("prompt", JStr "x")])) now_ex search_none
          (fun _ _ => Rejected (ErrorObj exceeded_msg))
     = mkResponse 429 (BodyError "QUOTA_EXCEEDED"
                         "API 額度已用完，請稍後再試或更換 API Key。").
Proof. vm_compute. repeat split. Qed.

(** C4 (amended). When the request body was read and destructured and the
    extraction call throws, the response is 429 with [QUOTA_EXCEEDED] if the
    error's message contains "quota", "429" or "exceeded", and 500 with
    [INTERNAL_ERROR] otherwise. *)
Theorem post_error_classification (req_json : outcome json) (v : json)
    (prompt : option json) (now : LocalDate) (search : SearchFn)
    (generate : GenerateFn) (t : thrown)
    (Hreq : req_json = Resolved v)
    (Hd : destructure_prompt v = Resolved prompt)
    (Hgen : forall model p, generate model p = Rejected t) :
  ((includes (message_of t) "quota" = true
    \/ includes (message_of t) "429" = true
    \/ includes (message_of t) "exceeded" = true) ->
   status (POST req_json now search generate) = 429%Z
   /\ error_code (POST req_json now search generate) = Some "QUOTA_EXCEEDED")
  /\ (includes (message_of t) "quota" = false ->
      includes (message_of t) "429" = false ->
      includes (message_of t) "exceeded" = false ->
      status (POST req_json now search generate) = 500%Z
      /\ error_code (POST req_json now search generate) = Some "INTERNAL_ERROR").
Proof.
  assert (HP : POST req_json now search generate = error_response t).
  { unfold POST, post_try. rewrite Hreq. simpl. rewrite Hd. simpl.
    rewrite (extract_generate_rejects post_prompt now search generate t Hgen).
    reflexivity. }
  rewrite HP. unfold error_response. fold (message_of t).
  split.
  - intros [H|[H|H]]; rewrite H; simpl;
      [|rewrite orb_true_r|rewrite orb_true_r]; split; reflexivity.
  - intros H1 H2 H3. rewrite H1, H2, H3. simpl. split; reflexivity.
Qed.

Lemma post_error_classification_witness :
  destructure_prompt (JObj [("prompt", JStr "x")]) = Resolved (Some (JStr "x"))
  /\ ((includes (message_of (ErrorObj "quota exhausted")) "quota" = true
       \/ includes (message_of (ErrorObj "quota exhausted")) "429" = true
       \/ includes (message_of (ErrorObj "quota exhausted")) "exceeded" = true) ->
      status (POST (Resolved (JObj [("prompt", JStr "x")])) now_ex search_none
                (fun _ _ => Rejected (ErrorObj "quota exhausted"))) = 429%Z
      /\ error_code (POST (Resolved (JObj [("prompt", JStr "x")])) now_ex search_none
                (fun _ _ => Rejected (ErrorObj "quota exhausted")))
         = Some "QUOTA_EXCEEDED")
  /\ (includes (message_of (ErrorObj "quota exhausted")) "quota" = false ->
      includes (message_of (ErrorObj "quota exhausted")) "429" = false ->
      includes (message_of (ErrorObj "quota exhausted")) "exceeded" = false ->
      status (POST (Resolved (JObj [("prompt", JStr "x")])) now_ex search_none
                (fun _ _ => Rejected (ErrorObj "quota exhausted"))) = 500%Z
      /\ error_code (POST (Resolved (JObj [("prompt", JStr "x")])) now_ex search_none
                (fun _ _ => Rejected (ErrorObj "quota exhausted")))
         = Some "INTERNAL_ERROR").
Proof.
  assert (Hd : destructure_prompt (JObj [("prompt", JStr "x")])
               = Resolved (Some (JStr "x"))) by reflexivity.
  split; [exact Hd|].
  exact (post_error_classification (Resolved (JObj [("prompt", JStr "x")]))
           (JObj [("prompt", JStr "x")]) (Some (JStr "x")) now_ex search_none
           (fun _ _ => Rejected (ErrorObj "quota exhausted"))
           (ErrorObj "quota exhausted") eq_refl Hd (fun _ _ => eq_refl)).
Defined.

(* ------------------------------------------------------------------ *)
(** ** The session date array in the schema *)

Lemma all_items_strings (ds : list string) :
  all_items z_string (map JStr ds) = Some ds.
Proof. induction ds as [|d ds IH]; simpl; [|rewrite IH]; reflexivity. Qed.

(** C5 (counterexample). The schema accepts a session whose date array has
    no element, and one with three elements; and [main] writes an event
    whose only session has an empty date array. *)
Lemma session_date_length_counterexample :
  parse_session (session_json []) = Some (session_ex [])
  /\ parse_session (session_json ["2026-01-01"; "2026-01-02"; "2026-01-03"])
     = Some (session_ex ["2026-01-01"; "2026-01-02"; "2026-01-03"])
  /\ main iso_parse_date now_ex search_none
       (generate_const (JObj [("events", JArr [event_json "E" [session_json []]])]))
       write_ok
     = Resolved [event_ex "E" [session_ex []]].
Proof. vm_compute. repeat split. Qed.

(** C5 (amended). Schema validation accepts a session's date array of any
    length, as long as every element is a string; the length 1 or 2 is only
    asked of the model in the prompt, and the written collection can hold a
    session whose date array has another length. *)
Theorem session_date_any_length (loc u : string) (ds : list string) :
  parse_session (JObj [("location", JStr loc); ("date", JArr (map JStr ds));
                       ("url", JStr u)])
  = Some (mkSession loc ds u)
  /\ exists now search generate out e s,
       main iso_parse_date now search generate write_ok = Resolved out
       /\ In e out /\ In s (sessions e) /\ length (date s) = 0.
Proof.
  split.
  - unfold parse_session, req. simpl. unfold z_array.
    rewrite all_items_strings. reflexivity.
  - exists now_ex, search_none,
      (generate_const (JObj [("events", JArr [event_json "E" [session_json []]])])),
      [event_ex "E" [session_ex []]], (event_ex "E" [session_ex []]), (session_ex []).
    split; [vm_compute; reflexivity|].
    split; [left; reflexivity|]. split; [left; reflexivity|]. reflexivity.
Qed.

(* ------------------------------------------------------------------ *)
(** ** The query planner on the last day of January *)

(** C6 (failing input). On 2026-01-31 the month keywords are computed with
    [setMonth] from a day 31: February 31 runs on into March, so the
    keyword string names January, March and March and leaves February out. *)
Theorem date_params_jan31 :
  valid_date (mkLocalDate 2026 0 31)
  /\ getDynamicDateParams (mkLocalDate 2026 0 31)
     = mkDateParams "2026/01/31" "2026/03/31"
         (dq ++ "2026 1月" ++ dq ++ " OR " ++ dq ++ "2026 3月" ++ dq ++ " OR "
          ++ dq ++ "2026 3月" ++ dq).
Proof.
  split.
  - unfold valid_date. vm_compute. repeat split; discriminate.
  - vm_compute. reflexivity.
Qed.

(* ------------------------------------------------------------------ *)
(** ** The caller's prompt in [POST] *)

(** C8. For any two request bodies that are JSON objects (in particular two
    that differ only in [prompt]), with the same collaborators [POST] gives
    the same response: the one the server-side extraction alone determines. *)
Theorem post_ignores_prompt (now : LocalDate) (search : SearchFn)
    (generate : GenerateFn) (fs1 fs2 : list (string * json)) :
  POST (Resolved (JObj fs1)) now search generate
  = POST (Resolved (JObj fs2)) now search generate
  /\ POST (Resolved (JObj fs1)) now search generate
     = match extract post_prompt now search generate with
       | Resolved events => mkResponse 200 (BodyEvents events)
       | Rejected t => error_response t
       end.
Proof.
  unfold POST, post_try. simpl. split; reflexivity.
Qed.

(* ------------------------------------------------------------------ *)
(** ** API keys at module load *)

(** An environment holding the LLM key only. *)
Definition env_google_only : Env :=
  fun k => if String.eqb k "GOOGLE_GENERATIVE_AI_API_KEY" then Some "g-key" else None.
Definition env_empty : Env := fun _ => None.
(** An environment holding both keys. *)
Definition env_both : Env :=
  fun k => if String.eqb k "GOOGLE_GENERATIVE_AI_API_KEY" then Some "g-key"
           else if String.eqb k "TAVILY_API_KEY" then Some "t-key" else None.

(** Client constructors that throw when they get no key. *)
Definition google_strict (generate : GenerateFn) : GoogleCtor :=
  fun k => match k with
           | Some _ => Resolved generate
           | None => Rejected (ErrorObj "Google Generative AI API key is missing.")
           end.
Definition tavily_strict (search : SearchFn) : TavilyCtor :=
  fun k => match k with
           | Some _ => Resolved search
           | None => Rejected (ErrorObj "No API key provided")
           end.

(** C9 (counterexample). With no [TAVILY_API_KEY] in the process
    environment nor in .env, and even with a search library that throws on a
    missing key, the batch run completes, writes its collection and exits
    with 0: it never reads that variable. [POST] reads it when a request
    arrives and answers that request with 500, the server having started. *)
Lemma startup_missing_key_counterexample :
  env_google_only "TAVILY_API_KEY" = None
  /\ run_script env_google_only env_empty (google_strict (generate_const ordered_json))
       (tavily_strict search_none) iso_parse_date now_ex write_ok
     = mkBatchResult
         (Some [event_ex "C" [session_ex ["2026-01-01"]];
                event_ex "D" [session_ex ["2026-02-01"; "2026-02-05"]];
                event_ex "A" [session_ex ["2026-03-01"]]]) 0
  /\ POST_env env_google_only (tavily_strict search_none) (Resolved dev_request_body)
       now_ex (generate_const ordered_json)
     = mkResponse 500 (BodyError "INTERNAL_ERROR" ("伺服器錯誤：" ++ "No API key provided")).
Proof. vm_compute. repeat split. Qed.

(** C9 (amended). Only the LLM key is read at startup, and nothing in the
    repository checks it. Module load of the batch script gives the provider
    constructor [GOOGLE_GENERATIVE_AI_API_KEY] from the process environment,
    else from .env, [undefined] included, and starts whenever that
    constructor does not throw. The batch's search key is the literal of
    line 88: the whole run is the same for two environments that agree on
    the LLM key, whatever their [TAVILY_API_KEY]. [POST] reads
    [TAVILY_API_KEY] on each request, inside its [try]: the request is then
    served as [POST] with the client built from it, or, when the
    construction throws, answered with the [catch] block's response for that
    error; no other variable changes its answer. *)
Theorem startup_reads_key_unchecked :
  (forall (process_env dotenv_file : Env) (createGoogleGenerativeAI : GoogleCtor),
     startup process_env dotenv_file createGoogleGenerativeAI
     = createGoogleGenerativeAI
         (match process_env "GOOGLE_GENERATIVE_AI_API_KEY" with
          | Some v => Some v
          | None => dotenv_file "GOOGLE_GENERATIVE_AI_API_KEY"
          end))
  /\ (forall (pe1 df1 pe2 df2 : Env) (createGoogleGenerativeAI : GoogleCtor)
        (tavily : TavilyCtor) (parse_date : string -> option Z) (now : LocalDate)
        (writeFileSync : WriteFn),
        load_dotenv pe1 df1 "GOOGLE_GENERATIVE_AI_API_KEY"
        = load_dotenv pe2 df2 "GOOGLE_GENERATIVE_AI_API_KEY" ->
        run_script pe1 df1 createGoogleGenerativeAI tavily parse_date now writeFileSync
        = run_script pe2 df2 createGoogleGenerativeAI tavily parse_date now writeFileSync)
  /\ (forall (pe df : Env) (createGoogleGenerativeAI : GoogleCtor) (tavily : TavilyCtor)
        (parse_date : string -> option Z) (now : LocalDate) (writeFileSync : WriteFn)
        (googleAI : GenerateFn) (tvly : SearchFn),
        startup pe df createGoogleGenerativeAI = Resolved googleAI ->
        tavily (Some tavily_key_literal) = Resolved tvly ->
        run_script pe df createGoogleGenerativeAI tavily parse_date now writeFileSync
        = run_batch parse_date now tvly googleAI writeFileSync)
  /\ (forall (env : Env) (tavily : TavilyCtor) (v : json) (prompt : option json)
        (now : LocalDate) (generate : GenerateFn),
        destructure_prompt v = Resolved prompt ->
        POST_env env tavily (Resolved v) now generate
        = match tavily (env "TAVILY_API_KEY") with
          | Resolved tvly => POST (Resolved v) now tvly generate
          | Rejected t => error_response t
          end)
  /\ (forall (env1 env2 : Env) (tavily : TavilyCtor) (req_json : outcome json)
        (now : LocalDate) (generate : GenerateFn),
        env1 "TAVILY_API_KEY" = env2 "TAVILY_API_KEY" ->
        POST_env env1 tavily req_json now generate
        = POST_env env2 tavily req_json now generate).
Proof.
  split; [|split; [|split; [|split]]].
  - intros. reflexivity.
  - intros pe1 df1 pe2 df2 g tv pd now w Hk.
    unfold run_script, startup. rewrite Hk. reflexivity.
  - intros pe df g tv pd now w googleAI tvly Hs Ht.
    unfold run_script. rewrite Hs, Ht. reflexivity.
  - intros env tv v prompt now generate Hd.
    unfold POST_env, post_try_env, POST, post_try. simpl. rewrite Hd. simpl.
    destruct (tv (env "TAVILY_API_KEY")); reflexivity.
  - intros env1 env2 tv req now generate Hk.
    unfold POST_env, post_try_env. rewrite Hk. reflexivity.
Qed.

Lemma startup_reads_key_unchecked_witness :
  load_dotenv env_google_only env_empty "GOOGLE_GENERATIVE_AI_API_KEY"
  = load_dotenv env_both env_empty "GOOGLE_GENERATIVE_AI_API_KEY"
  /\ run_script env_google_only env_empty (google_strict (generate_const ordered_json))
       (tavily_strict search_none) iso_parse_date now_ex write_ok
     = run_script env_both env_empty (google_strict (generate_const ordered_json))
       (tavily_strict search_none) iso_parse_date now_ex write_ok.
Proof.
  assert (Hk : load_dotenv env_google_only env_empty "GOOGLE_GENERATIVE_AI_API_KEY"
               = load_dotenv env_both env_empty "GOOGLE_GENERATIVE_AI_API_KEY")
    by reflexivity.
  split; [exact Hk|].
  exact (proj1 (proj2 startup_reads_key_unchecked) env_google_only env_empty env_both
           env_empty (google_strict (generate_const ordered_json))
           (tavily_strict search_none) iso_parse_date now_ex write_ok Hk).
Defined.

(* ------------------------------------------------------------------ *)
(** ** [setMonth] and the query planner on other days *)
Lemma days_in_month_range (y m : Z) : (28 <= days_in_month y m <= 31)%Z.
Proof.
  unfold days_in_month.
  destruct (Z.eqb m 1); [destruct (is_leap y)|]; [lia|lia|].
  destruct (Z.eqb m 3 || Z.eqb m 5 || Z.eqb m 8 || Z.eqb m 10); lia.
Qed.

Lemma set_month_same_day (d : LocalDate) (m : Z) :
  (dy d <= days_in_month (yr d + m / 12) (m mod 12))%Z ->
  set_month d m = mkLocalDate (yr d + m / 12) (m mod 12) (dy d).
Proof. intro Hle. unfold set_month. apply Z.leb_le in Hle. rewrite Hle. reflexivity. Qed.

(** X1. [setMonth] from a valid calendar date gives a valid calendar date for any target month index (negative or past 11 included) whose year, the index normalised into the year, lies in the range of a JS [Date] (years -271820 to 275758, well inside the time-value limit of 8.64e15 ms); the result's year stays in that range, carried by at most one. When the day of month exists in the target month, the result is that month with the same day. *)
Theorem set_month_valid (d : LocalDate) (m : Z) (Hd : valid_date d)
    (Hy : (-271820 <= yr d + m / 12 <= 275758)%Z) :
  valid_date (set_month d m)
  /\ (-271820 <= yr (set_month d m) <= 275759)%Z
  /\ ((dy d <= days_in_month (yr d + m / 12) (m mod 12))%Z ->
      set_month d m = mkLocalDate (yr d + m / 12) (m mod 12) (dy d)).
Proof.
  split; [|split; [|apply set_month_same_day]].
  - destruct Hd as [Hm Hdy].
    pose proof (days_in_month_range (yr d) (mon d)).
    pose proof (Z.mod_pos_bound m 12 ltac:(lia)).
    pose proof (days_in_month_range (yr d + m / 12) (m mod 12)).
    unfold set_month.
    destruct (Z.leb_spec (dy d) (days_in_month (yr d + m / 12) (m mod 12))).
    + unfold valid_date; simpl; lia.
    + destruct (Z.eqb_spec (m mod 12) 11).
      * unfold valid_date; simpl.
        pose proof (days_in_month_range (yr d + m / 12 + 1) 0). lia.
      * unfold valid_date; simpl.
        pose proof (days_in_month_range (yr d + m / 12) (m mod 12 + 1)). lia.
  - unfold set_month.
    destruct (Z.leb (dy d) (days_in_month (yr d + m / 12) (m mod 12)));
      [simpl; lia|].
    destruct (Z.eqb (m mod 12) 11); simpl; lia.
Qed.

Lemma set_month_valid_witness :
  valid_date (mkLocalDate 2026 0 31)
  /\ (-271820 <= 2026 + 1 / 12 <= 275758)%Z
  /\ (valid_date (set_month (mkLocalDate 2026 0 31) 1)
      /\ (-271820 <= yr (set_month (mkLocalDate 2026 0 31) 1) <= 275759)%Z
      /\ ((31 <= days_in_month (2026 + 1 / 12) (1 mod 12))%Z ->
          set_month (mkLocalDate 2026 0 31) 1
          = mkLocalDate (2026 + 1 / 12) (1 mod 12) 31)).
Proof.
  assert (H : valid_date (mkLocalDate 2026 0 31))
    by (unfold valid_date; vm_compute; repeat split; discriminate).
  assert (Hy : (-271820 <= 2026 + 1 / 12 <= 275758)%Z) by (simpl; lia).
  split; [exact H|split; [exact Hy|]].
  exact (set_month_valid (mkLocalDate 2026 0 31) 1 H Hy).
Defined.

(** X2. When today's day of month is at most 28, [getDynamicDateParams] gives as end date the same day two months later, and as search string the keywords of the current month and of the next two, with the year carried over December. *)
Theorem date_params_day_le_28 (now : LocalDate) (H28 : (dy now <= 28)%Z) :
  getDynamicDateParams now
  = mkDateParams (formatDate now)
      (formatDate (mkLocalDate (yr now + (mon now + 2) / 12)
                               ((mon now + 2) mod 12) (dy now)))
      (join " OR "
         (map (fun i => dq ++ Z_to_string (yr now + (mon now + i) / 12) ++ " "
                        ++ Z_to_string ((mon now + i) mod 12 + 1) ++ "月" ++ dq)
              [0; 1; 2]%Z)).
Proof.
  assert (Hs : forall i, set_month now (mon now + i)
     = mkLocalDate (yr now + (mon now + i) / 12) ((mon now + i) mod 12) (dy now)).
  { intro i. apply set_month_same_day.
    pose proof (days_in_month_range (yr now + (mon now + i) / 12)
                  ((mon now + i) mod 12)). lia. }
  unfold getDynamicDateParams. simpl keyword_loop.
  unfold month_keyword. rewrite !Hs. rewrite Z.add_0_r. simpl.
  rewrite Z.add_0_r. reflexivity.
Qed.

Lemma date_params_day_le_28_witness :
  (dy now_ex <= 28)%Z
  /\ getDynamicDateParams now_ex
     = mkDateParams (formatDate now_ex)
         (formatDate (mkLocalDate (yr now_ex + (mon now_ex + 2) / 12)
                                  ((mon now_ex + 2) mod 12) (dy now_ex)))
         (join " OR "
            (map (fun i => dq ++ Z_to_string (yr now_ex + (mon now_ex + i) / 12) ++ " "
                           ++ Z_to_string ((mon now_ex + i) mod 12 + 1) ++ "月" ++ dq)
                 [0; 1; 2]%Z)).
Proof.
  assert (H : (dy now_ex <= 28)%Z) by (vm_compute; discriminate).
  split; [exact H|exact (date_params_day_le_28 now_ex H)].
Defined.



(* ------------------------------------------------------------------ *)
(** ** Deduplicating twice *)

Lemma map_set_new {V : Type} (k : string) (v : V) (m : JsMap V) :
  ~ In k (keys m) -> map_set k v m = (m ++ [(k, v)])%list.
Proof.
  induction m as [|[k' v'] m IH]; intro Hn; simpl; [reflexivity|].
  destruct (String.eqb_spec k k') as [Heq|Hne].
  - exfalso. apply Hn. left. symmetry. exact Heq.
  - f_equal. apply IH. intro H. apply Hn. right. exact H.
Qed.

Lemma new_map_distinct (l : list RawHit) (m : JsMap RawHit) :
  NoDup (keys m ++ map url l)%list ->
  fold_left (fun m kv => map_set (fst kv) (snd kv) m)
    (map (fun item => (url item, item)) l) m
  = (m ++ map (fun item => (url item, item)) l)%list.
Proof.
  revert m. induction l as [|h l IH]; intros m Hnd; simpl.
  - rewrite app_nil_r. reflexivity.
  - rewrite map_set_new.
    + rewrite IH.
      * rewrite <- app_assoc. reflexivity.
      * unfold keys. rewrite map_app. simpl. rewrite <- app_assoc. exact Hnd.
    + intro Hin. apply NoDup_remove_2 in Hnd. apply Hnd.
      apply in_or_app. left. exact Hin.
Qed.

(** X3. The deduplication leaves a list whose links are already distinct unchanged, and deduplicating twice gives the same list as deduplicating once. *)
Theorem dedup_idempotent (l : list RawHit) :
  (NoDup (map url l) -> dedup l = l) /\ dedup (dedup l) = dedup l.
Proof.
  assert (Hid : forall l', NoDup (map url l') -> dedup l' = l').
  { intros l' Hnd. unfold dedup, new_map, map_values.
    rewrite new_map_distinct by exact Hnd. simpl.
    rewrite map_map. simpl. apply map_id. }
  split; [exact (Hid l)|].
  apply Hid. rewrite dedup_links. apply firsts_NoDup.
Qed.

Lemma dedup_idempotent_witness :
  NoDup (map url [hit_ex "https://kktix.com/a"; hit_ex "https://kktix.com/b"])
  /\ dedup [hit_ex "https://kktix.com/a"; hit_ex "https://kktix.com/b"]
     = [hit_ex "https://kktix.com/a"; hit_ex "https://kktix.com/b"].
Proof.
  assert (H : NoDup (map url [hit_ex "https://kktix.com/a"; hit_ex "https://kktix.com/b"])).
  { simpl. constructor; [|constructor; [intros []|constructor]].
    intros [H|[]]. discriminate. }
  split; [exact H|exact (proj1 (dedup_idempotent _) H)].
Defined.


(* ------------------------------------------------------------------ *)
(** ** A schema failure in the model's answer *)
Lemma all_items_fails {A : Type} (p : json -> option A) (items : list json) (bad : json) :
  In bad items -> p bad = None -> all_items p items = None.
Proof.
  induction items as [|x items IH]; intros Hin Hp; [destruct Hin|].
  simpl. destruct Hin as [->|Hin].
  - rewrite Hp. reflexivity.
  - rewrite (IH Hin Hp). destruct (p x); reflexivity.
Qed.

Definition schema_error : string :=
  "No object generated: response did not match schema.".

Lemma extract_schema_rejects (prompt_of : string -> string -> string -> string)
    (now : LocalDate) (search : SearchFn) (generate : GenerateFn) (j : json) :
  (forall model prompt, generate model prompt = Resolved j) ->
  parse_EventSchema j = None ->
  extract prompt_of now search generate = Rejected (ErrorObj schema_error).
Proof.
  intros Hgen Hp. unfold extract. rewrite collect_resolved. simpl.
  unfold generate_object. rewrite Hgen. simpl. rewrite Hp. reflexivity.
Qed.

(** X4. When the model's object has an events array in which a single item fails the event schema, the whole extraction fails: the batch run writes nothing and exits with 1, and [POST] answers 500 [INTERNAL_ERROR] with the schema error message. *)
Theorem invalid_event_fails_run (parse_date : string -> option Z)
    (now : LocalDate) (search : SearchFn) (generate : GenerateFn)
    (writeFileSync : WriteFn) (fs : list (string * json)) (items : list json) (bad : json) (v : json)
    (prompt : option json)
    (Hgen : forall model p, generate model p = Resolved (JObj fs))
    (Hev : get_field "events" fs = Some (JArr items))
    (Hbad : In bad items) (Hinv : parse_event bad = None)
    (Hd : destructure_prompt v = Resolved prompt) :
  run_batch parse_date now search generate writeFileSync = mkBatchResult None 1
  /\ POST (Resolved v) now search generate
     = mkResponse 500 (BodyError "INTERNAL_ERROR" ("伺服器錯誤：" ++ schema_error)).
Proof.
  assert (Hp : parse_EventSchema (JObj fs) = None).
  { simpl. unfold req. rewrite Hev. simpl. exact (all_items_fails _ _ _ Hbad Hinv). }
  split.
  - unfold run_batch, main.
    rewrite (extract_schema_rejects main_prompt now search generate _ Hgen Hp).
    reflexivity.
  - unfold POST, post_try. simpl. rewrite Hd. simpl.
    rewrite (extract_schema_rejects post_prompt now search generate _ Hgen Hp).
    vm_compute. reflexivity.
Qed.

(** A model answer whose second event lacks every member but its title. *)
Definition bad_event_json : json := JObj [("title", JStr "x")].
Definition bad_answer_fields : list (string * json) :=
  [("events", JArr [event_json "A" [session_json ["2026-03-01"]]; bad_event_json])].

Lemma invalid_event_fails_run_witness :
  get_field "events" bad_answer_fields
    = Some (JArr [event_json "A" [session_json ["2026-03-01"]]; bad_event_json])
  /\ parse_event bad_event_json = None
  /\ run_batch iso_parse_date now_ex search_none (generate_const (JObj bad_answer_fields))
       write_ok
     = mkBatchResult None 1
  /\ POST (Resolved (JObj [("prompt", JStr "x")])) now_ex search_none
          (generate_const (JObj bad_answer_fields))
     = mkResponse 500 (BodyError "INTERNAL_ERROR" ("伺服器錯誤：" ++ schema_error)).
Proof.
  assert (Hev : get_field "events" bad_answer_fields
    = Some (JArr [event_json "A" [session_json ["2026-03-01"]]; bad_event_json]))
    by reflexivity.
  assert (Hinv : parse_event bad_event_json = None) by reflexivity.
  split; [exact Hev|split; [exact Hinv|]].
  exact (invalid_event_fails_run iso_parse_date now_ex search_none
           (generate_const (JObj bad_answer_fields)) write_ok bad_answer_fields _ bad_event_json
           (JObj [("prompt", JStr "x")]) (Some (JStr "x"))
           (fun _ _ => eq_refl) Hev (or_intror (or_introl eq_refl)) Hinv eq_refl).
Defined.


(* ------------------------------------------------------------------ *)
(** ** Request bodies of [POST] *)
(** X5. [POST] with an unreadable request body answers with the [catch] block's response for that error, without searching; a [null] body answers 500 [INTERNAL_ERROR] with the destructuring TypeError; any other non-object body (number, string, boolean, array) is answered as an object without [prompt]. *)
Theorem post_body_errors (now : LocalDate) (search : SearchFn)
    (generate : GenerateFn) (t : thrown) (v : json) :
  POST (Rejected t) now search generate = error_response t
  /\ POST (Resolved JNull) now search generate
     = mkResponse 500 (BodyError "INTERNAL_ERROR"
         ("伺服器錯誤：" ++ "Cannot destructure property 'prompt' of '(intermediate value)' as it is null."))
  /\ (v <> JNull -> POST (Resolved v) now search generate
                    = POST (Resolved (JObj [])) now search generate).
Proof.
  split; [reflexivity|split].
  - vm_compute. reflexivity.
  - intro Hv. unfold POST, post_try. simpl.
    destruct v; [congruence| | | | | ]; reflexivity.
Qed.

Lemma post_body_errors_witness :
  JNum 3 <> JNull
  /\ POST (Resolved (JNum 3)) now_ex search_none (generate_const ordered_json)
     = POST (Resolved (JObj [])) now_ex search_none (generate_const ordered_json).
Proof.
  assert (H : JNum 3 <> JNull) by discriminate.
  split; [exact H|].
  exact (proj2 (proj2 (post_body_errors now_ex search_none (generate_const ordered_json)
                         (ErrorObj "e") (JNum 3))) H).
Defined.



(* ------------------------------------------------------------------ *)
(** ** The filters of the page *)

Lemma truthy_str_false (s : string) : truthy_str s = false <-> s = "".
Proof.
  unfold truthy_str. destruct (String.eqb_spec s ""); simpl; split; congruence.
Qed.

(** X6. An event is in [filteredEvents] exactly when it is in the page's events and matches every active (non-null, non-empty) filter: same category, some session at the location, the tag among its tags. *)
Theorem filteredEvents_spec (evs : list PageEvent) (c l t : option string)
    (e : PageEvent) :
  In e (filteredEvents evs c l t)
  <-> In e evs
      /\ (forall cat, c = Some cat -> cat <> "" -> pe_category e = cat)
      /\ (forall loc, l = Some loc -> loc <> "" ->
            exists s, In s (pe_sessions e) /\ location s = loc)
      /\ (forall tag, t = Some tag -> tag <> "" ->
            exists ts, pe_tags e = Some ts /\ In tag ts).
Proof.
  unfold filteredEvents. rewrite filter_In.
  assert (Hc : (match c with
                | Some cat => truthy_str cat && negb (String.eqb (pe_category e) cat)
                | None => false end) = false
               <-> (forall cat, c = Some cat -> cat <> "" -> pe_category e = cat)).
  { destruct c as [cat|]; split.
    - intros H cat' Heq Hne. injection Heq as <-.
      apply andb_false_iff in H as [H|H].
      + apply truthy_str_false in H. contradiction.
      + apply negb_false_iff, String.eqb_eq in H. exact H.
    - intro H. destruct (String.eqb_spec cat "") as [->|Hne].
      + reflexivity.
      + rewrite (H cat eq_refl Hne), String.eqb_refl, andb_false_r. reflexivity.
    - intros H cat' Heq. discriminate.
    - intros _. reflexivity. }
  assert (Hl : (match l with
                | Some loc => truthy_str loc
                    && negb (existsb (fun s => String.eqb (location s) loc) (pe_sessions e))
                | None => false end) = false
               <-> (forall loc, l = Some loc -> loc <> "" ->
                     exists s, In s (pe_sessions e) /\ location s = loc)).
  { destruct l as [loc|]; split.
    - intros H loc' Heq Hne. injection Heq as <-.
      apply andb_false_iff in H as [H|H].
      + apply truthy_str_false in H. contradiction.
      + apply negb_false_iff, existsb_exists in H as [s [Hs Heqs]].
        exists s. split; [exact Hs|]. apply String.eqb_eq. exact Heqs.
    - intro H. destruct (String.eqb_spec loc "") as [->|Hne]; [reflexivity|].
      destruct (H loc eq_refl Hne) as [s [Hs Heqs]].
      replace (existsb (fun s => String.eqb (location s) loc) (pe_sessions e)) with true.
      + apply andb_false_r.
      + symmetry. apply existsb_exists. exists s. split; [exact Hs|].
        apply String.eqb_eq. exact Heqs.
    - intros H loc' Heq. discriminate.
    - intros _. reflexivity. }
  assert (Ht : (match t with
                | Some tag => truthy_str tag
                    && negb (existsb (String.eqb tag)
                             (match pe_tags e with Some ts => ts | None => [] end))
                | None => false end) = false
               <-> (forall tag, t = Some tag -> tag <> "" ->
                     exists ts, pe_tags e = Some ts /\ In tag ts)).
  { destruct t as [tag|]; split.
    - intros H tag' Heq Hne. injection Heq as <-.
      apply andb_false_iff in H as [H|H].
      + apply truthy_str_false in H. contradiction.
      + apply negb_false_iff, existsb_exists in H as [x [Hx Heqx]].
        apply String.eqb_eq in Heqx. subst x.
        destruct (pe_tags e) as [ts|]; [|destruct Hx].
        exists ts. split; [reflexivity|exact Hx].
    - intro H. destruct (String.eqb_spec tag "") as [->|Hne]; [reflexivity|].
      destruct (H tag eq_refl Hne) as [ts [Hts Hin]]. rewrite Hts.
      replace (existsb (String.eqb tag) ts) with true.
      + apply andb_false_r.
      + symmetry. apply existsb_exists. exists tag. split; [exact Hin|].
        apply String.eqb_refl.
    - intros H tag' Heq. discriminate.
    - intros _. reflexivity. }
  unfold event_passes. rewrite <- Hc, <- Hl, <- Ht.
  destruct (match c with
            | Some cat => truthy_str cat && negb (String.eqb (pe_category e) cat)
            | None => false end);
  [intuition discriminate|];
  destruct (match l with
            | Some loc => truthy_str loc
                && negb (existsb (fun s => String.eqb (location s) loc) (pe_sessions e))
            | None => false end);
  [intuition discriminate|];
  destruct (match t with
            | Some tag => truthy_str tag
                && negb (existsb (String.eqb tag)
                         (match pe_tags e with Some ts => ts | None => [] end))
            | None => false end);
  intuition discriminate.
Qed.

Lemma truthy_false (s : option string) : truthy s = false <-> s = None \/ s = Some "".
Proof.
  destruct s as [v|]; simpl.
  - rewrite truthy_str_false. split; [intros ->; right; reflexivity|].
    intros [H|H]; [discriminate|injection H as ->; reflexivity].
  - split; [left; reflexivity|reflexivity].
Qed.

(** X7. [hasActiveFilter] is false exactly when each filter is null or the empty string, and then [filteredEvents] is the whole event list: an empty-string filter value filters nothing. *)
Theorem inactive_filters_show_all (evs : list PageEvent) (c l t : option string) :
  (hasActiveFilter c l t = false
   <-> (c = None \/ c = Some "") /\ (l = None \/ l = Some "")
       /\ (t = None \/ t = Some ""))
  /\ (hasActiveFilter c l t = false -> filteredEvents evs c l t = evs).
Proof.
  unfold hasActiveFilter.
  split.
  - rewrite !orb_false_iff, !truthy_false. tauto.
  - rewrite !orb_false_iff, !truthy_false.
    intros [[[->| ->] [->| ->]] [->| ->]];
      unfold filteredEvents, event_passes; simpl; apply forallb_filter_id;
      apply forallb_forall; intros x _; reflexivity.
Qed.

(** Events of the page for the examples below. *)
Definition page_ev (t c : string) (ss : list Session) (tg : option (list string))
    : PageEvent := mkPageEvent t ss "d" tg c.

Definition page_evs_ex : list PageEvent :=
  [page_ev "A" "演唱會" [session_ex ["2026-03-01"]] (Some ["live"]);
   page_ev "B" "展覽" [session_ex ["2026-01-01"]] None].

Lemma inactive_filters_show_all_witness :
  hasActiveFilter (Some "") None (Some "") = false
  /\ filteredEvents page_evs_ex (Some "") None (Some "") = page_evs_ex.
Proof.
  assert (H : hasActiveFilter (Some "") None (Some "") = false).
  { apply (proj1 (inactive_filters_show_all page_evs_ex (Some "") None (Some ""))).
    split; [right; reflexivity|split; [left; reflexivity|right; reflexivity]]. }
  split; [exact H|].
  exact (proj2 (inactive_filters_show_all page_evs_ex (Some "") None (Some "")) H).
Defined.


(** X8. Filtering by category, location and tag together gives the same list as filtering by the tag, then by the location, then by the category. *)
Theorem filters_compose (evs : list PageEvent) (c l t : option string) :
  filteredEvents evs c l t
  = filteredEvents (filteredEvents (filteredEvents evs None None t) None l None)
      c None None.
Proof.
  unfold filteredEvents. rewrite !filter_filter_and.
  apply filter_ext. intro e. unfold event_passes.
  destruct (match c with
            | Some cat => truthy_str cat && negb (String.eqb (pe_category e) cat)
            | None => false end);
  destruct (match l with
            | Some loc => truthy_str loc
                && negb (existsb (fun s => String.eqb (location s) loc) (pe_sessions e))
            | None => false end);
  destruct (match t with
            | Some tag => truthy_str tag
                && negb (existsb (String.eqb tag)
                         (match pe_tags e with Some ts => ts | None => [] end))
            | None => false end); reflexivity.
Qed.

(** X9. No sequence of clicks from the page's initial state ever sets the location filter; and after [clearAllFilters] no filter is active and every event is shown. *)
Theorem filter_actions (actions : list FilterAction) (f : Filters)
    (evs : list PageEvent) :
  activeLocation (run_actions initial_filters actions) = None
  /\ (let f' := run_actions f (actions ++ [ClearAll]) in
      hasActiveFilter (activeCategory f') (activeLocation f') (activeTag f') = false
      /\ filteredEvents evs (activeCategory f') (activeLocation f') (activeTag f')
         = evs).
Proof.
  split.
  - unfold run_actions.
    assert (Hinv : forall g, activeLocation g = None ->
              activeLocation (fold_left filter_step actions g) = None).
    { induction actions as [|a actions IH]; intros g Hg; simpl; [exact Hg|].
      apply IH. destruct a; simpl; try reflexivity; exact Hg. }
    apply Hinv. reflexivity.
  - unfold run_actions. rewrite fold_left_app. simpl.
    split; [reflexivity|].
    unfold filteredEvents, event_passes; simpl. apply forallb_filter_id.
    apply forallb_forall; intros x _; reflexivity.
Qed.


(* ------------------------------------------------------------------ *)
(** ** The filter options of the page *)

Lemma set_add_In (x y : string) (s : list string) :
  In y (set_add x s) <-> y = x \/ In y s.
Proof.
  unfold set_add. destruct (existsb (String.eqb x) s) eqn:E.
  - apply existsb_exists in E as [z [Hz Hxz]]. apply String.eqb_eq in Hxz. subst z.
    split; [intro H; right; exact H|]. intros [->|H]; assumption.
  - rewrite in_app_iff. simpl. split.
    + intros [H|[H|[]]]; [right; exact H|left; symmetry; exact H].
    + intros [H|H]; [right; left; symmetry; exact H|left; exact H].
Qed.

Lemma set_add_NoDup (x : string) (s : list string) :
  NoDup s -> NoDup (set_add x s).
Proof.
  intro Hnd. unfold set_add. destruct (existsb (String.eqb x) s) eqn:E; [exact Hnd|].
  apply NoDup_app; [exact Hnd|constructor; [intros []|constructor]|].
  intros y Hy [Hyx|[]]. subst y.
  assert (existsb (String.eqb x) s = true)
    by (apply existsb_exists; exists x; split; [exact Hy|apply String.eqb_refl]).
  congruence.
Qed.

Lemma fold_set_add {T : Type} (f : T -> string) (xs : list T) (s : list string) :
  NoDup s ->
  NoDup (fold_left (fun acc x => set_add (f x) acc) xs s)
  /\ (forall y, In y (fold_left (fun acc x => set_add (f x) acc) xs s)
                <-> In y s \/ exists x, In x xs /\ f x = y).
Proof.
  revert s. induction xs as [|x xs IH]; intros s Hnd; simpl.
  - split; [exact Hnd|]. intro y. split; [intro H; left; exact H|].
    intros [H|[x [[] _]]]. exact H.
  - destruct (IH (set_add (f x) s) (set_add_NoDup _ _ Hnd)) as [H1 H2].
    split; [exact H1|]. intro y. rewrite H2, set_add_In. split.
    + intros [[->|H]|[z [Hz Hzy]]].
      * right. exists x. split; [left; reflexivity|reflexivity].
      * left. exact H.
      * right. exists z. split; [right; exact Hz|exact Hzy].
    + intros [H|[z [[->|Hz] Hzy]]].
      * left. right. exact H.
      * left. left. symmetry. exact Hzy.
      * right. exists z. split; [exact Hz|exact Hzy].
Qed.

Lemma options_fold (evs : list PageEvent) (cs ls ts cs' ls' ts' : list string) :
  NoDup cs -> NoDup ls -> NoDup ts ->
  fold_left add_event_options evs (cs, ls, ts) = (cs', ls', ts') ->
  NoDup cs' /\ NoDup ls' /\ NoDup ts'
  /\ (forall c, In c cs' <-> In c cs \/ exists e, In e evs /\ pe_category e = c)
  /\ (forall loc, In loc ls' <-> In loc ls \/
        exists e s, In e evs /\ In s (pe_sessions e) /\ location s = loc)
  /\ (forall t, In t ts' <-> In t ts \/
        exists e tg, In e evs /\ pe_tags e = Some tg /\ In t tg).
Proof.
  revert cs ls ts. induction evs as [|e evs IH]; intros cs ls ts Hc Hl Ht Hf.
  - simpl in Hf. injection Hf as <- <- <-.
    split; [exact Hc|split; [exact Hl|split; [exact Ht|]]].
    split; [|split]; intro x; split; (intros [H|H]; [exact H|]) || (intro H; left; exact H);
      firstorder.
  - simpl in Hf.
    destruct (fold_set_add location (pe_sessions e) ls Hl) as [Hl1 Hl2].
    destruct (fold_set_add (fun t => t) (match pe_tags e with Some tg => tg | None => [] end)
                ts Ht) as [Ht1 Ht2].
    assert (HtE : (match pe_tags e with
                   | Some tg => fold_left (fun tg0 t => set_add t tg0) tg ts
                   | None => ts end)
                  = fold_left (fun acc x => set_add ((fun t => t) x) acc)
                      (match pe_tags e with Some tg => tg | None => [] end) ts)
      by (destruct (pe_tags e); reflexivity).
    rewrite HtE in Hf.
    destruct (IH _ _ _ (set_add_NoDup _ _ Hc) Hl1 Ht1 Hf)
      as [N1 [N2 [N3 [I1 [I2 I3]]]]].
    split; [exact N1|split; [exact N2|split; [exact N3|]]].
    split; [|split].
    + intro c. rewrite I1, set_add_In. split.
      * intros [[->|H]|[e' [He' Hc']]].
        -- right. exists e. split; [left|]; reflexivity.
        -- left. exact H.
        -- right. exists e'. split; [right; exact He'|exact Hc'].
      * intros [H|[e' [[<-|He'] Hc']]].
        -- left. right. exact H.
        -- left. left. symmetry. exact Hc'.
        -- right. exists e'. split; [exact He'|exact Hc'].
    + intro loc. rewrite I2, Hl2. split.
      * intros [[H|[s [Hs Hls]]]|[e' [s [He' [Hs Hls]]]]].
        -- left. exact H.
        -- right. exists e, s. split; [left; reflexivity|split; assumption].
        -- right. exists e', s. split; [right; exact He'|split; assumption].
      * intros [H|[e' [s [[<-|He'] [Hs Hls]]]]].
        -- left. left. exact H.
        -- left. right. exists s. split; assumption.
        -- right. exists e', s. split; [exact He'|split; assumption].
    + intro t. rewrite I3, Ht2. split.
      * intros [[H|[x [Hx Hxt]]]|[e' [tg [He' [Htg Ht']]]]].
        -- left. exact H.
        -- right. subst x. destruct (pe_tags e) as [tg|] eqn:Hte; [|destruct Hx].
           exists e, tg. split; [left; reflexivity|split; [exact Hte|exact Hx]].
        -- right. exists e', tg. split; [right; exact He'|split; assumption].
      * intros [H|[e' [tg [[<-|He'] [Htg Ht']]]]].
        -- left. left. exact H.
        -- left. right. exists t. rewrite Htg. split; [exact Ht'|reflexivity].
        -- right. exists e', tg. split; [exact He'|split; assumption].
Qed.

(** X10. The category, location and tag lists of [filterOptions] have no duplicates and hold exactly the categories, the session locations and the tags that occur in the events. *)
Theorem filterOptions_distinct_complete (evs : list PageEvent) :
  NoDup (opt_categories (filterOptions evs))
  /\ NoDup (opt_locations (filterOptions evs))
  /\ NoDup (opt_tags (filterOptions evs))
  /\ (forall c, In c (opt_categories (filterOptions evs))
                <-> exists e, In e evs /\ pe_category e = c)
  /\ (forall loc, In loc (opt_locations (filterOptions evs))
                  <-> exists e s, In e evs /\ In s (pe_sessions e) /\ location s = loc)
  /\ (forall t, In t (opt_tags (filterOptions evs))
                <-> exists e tg, In e evs /\ pe_tags e = Some tg /\ In t tg).
Proof.
  unfold filterOptions.
  destruct (fold_left add_event_options evs ([], [], [])) as [[cs ls] ts] eqn:Hf.
  destruct (options_fold evs [] [] [] cs ls ts (NoDup_nil _) (NoDup_nil _)
              (NoDup_nil _) Hf) as [N1 [N2 [N3 [I1 [I2 I3]]]]].
  pose proof (array_sort_perm string string_cmp cs) as P1.
  pose proof (array_sort_perm string string_cmp ls) as P2.
  pose proof (array_sort_perm string string_cmp ts) as P3.
  simpl.
  split; [exact (Permutation_NoDup P1 N1)|].
  split; [exact (Permutation_NoDup P2 N2)|].
  split; [exact (Permutation_NoDup P3 N3)|].
  split; [|split].
  - intro c. split.
    + intro H. apply (Permutation_in _ (Permutation_sym P1)) in H.
      apply I1 in H as [[]|H]. exact H.
    + intro H. apply (Permutation_in _ P1). apply I1. right. exact H.
  - intro loc. split.
    + intro H. apply (Permutation_in _ (Permutation_sym P2)) in H.
      apply I2 in H as [[]|H]. exact H.
    + intro H. apply (Permutation_in _ P2). apply I2. right. exact H.
  - intro t. split.
    + intro H. apply (Permutation_in _ (Permutation_sym P3)) in H.
      apply I3 in H as [[]|H]. exact H.
    + intro H. apply (Permutation_in _ P3). apply I3. right. exact H.
Qed.


(* ------------------------------------------------------------------ *)
(** ** The date line of a card and the side panel's [formatDate] *)

Lemma str_app_empty_r (s : string) : s ++ "" = s.
Proof. induction s as [|c s IH]; simpl; [|rewrite IH]; reflexivity. Qed.

Lemma str_app_cancel (a b c : string) : a ++ b = a ++ c -> b = c.
Proof.
  induction a as [|x a IH]; simpl; intro H; [exact H|].
  injection H as H. exact (IH H).
Qed.

Lemma str_app_len (a b : string) : String.length (a ++ b) = String.length a + String.length b.
Proof. induction a as [|x a IH]; simpl; [|rewrite IH]; reflexivity. Qed.

(** X11. For an event whose first session has the date array [ds], the card's date line and the side panel's [formatDate] agree exactly when [ds] has one date, or two with a non-empty second; with no date the card shows "undefined" and the panel an empty string. *)
Theorem card_vs_panel_dates (e : PageEvent) (s : Session) (rest : list Session)
    (Hs : pe_sessions e = s :: rest) :
  (card_date_line e = Resolved (SidePanel.formatDate (date s))
   <-> (exists d, date s = [d]) \/ (exists d0 d1, date s = [d0; d1] /\ d1 <> ""))
  /\ (date s = [] -> card_date_line e = Resolved "undefined"
                     /\ SidePanel.formatDate (date s) = "").
Proof.
  unfold card_date_line. rewrite Hs.
  destruct (date s) as [|d0 [|d1 [|d2 ds]]].
  - split; [|intros _; split; reflexivity].
    split.
    + intro H. injection H as H. discriminate.
    + intros [[d H]|[d0 [d1 [H _]]]]; discriminate.
  - split; [|intro H; discriminate].
    simpl. rewrite str_app_empty_r. split; [intros _; left; exists d0; reflexivity|].
    intros _; reflexivity.
  - split; [|intro H; discriminate].
    simpl. unfold truthy_str. destruct (String.eqb_spec d1 "") as [->|Hne]; simpl.
    + split.
      * intro H. injection H as H. apply (f_equal String.length) in H.
        rewrite !str_app_len in H. simpl in H. lia.
      * intros [[d H]|[x [y [H Hy]]]]; [discriminate|].
        injection H as _ <-. contradiction.
    + split; [intros _; right; exists d0, d1; split; [reflexivity|exact Hne]|].
      intros _; reflexivity.
  - split; [|intro H; discriminate].
    split.
    + intro H. injection H as H. exfalso. simpl in H.
      apply str_app_cancel in H.
      destruct (truthy_str d1); discriminate.
    + intros [[d H]|[x [y [H _]]]]; discriminate.
Qed.

Lemma card_vs_panel_dates_witness :
  pe_sessions (page_ev "A" "展覽" [session_ex ["2026-01-01"; "2026-01-05"]] None)
    = [session_ex ["2026-01-01"; "2026-01-05"]]
  /\ card_date_line (page_ev "A" "展覽" [session_ex ["2026-01-01"; "2026-01-05"]] None)
     = Resolved (SidePanel.formatDate (date (session_ex ["2026-01-01"; "2026-01-05"]))).
Proof.
  assert (Hs : pe_sessions (page_ev "A" "展覽" [session_ex ["2026-01-01"; "2026-01-05"]] None)
               = [session_ex ["2026-01-01"; "2026-01-05"]]) by reflexivity.
  split; [exact Hs|].
  apply (proj1 (card_vs_panel_dates _ _ [] Hs)).
  right. exists "2026-01-01", "2026-01-05". split; [reflexivity|discriminate].
Defined.



(* ------------------------------------------------------------------ *)
(** ** Loading the events in the page *)

Definition is_rejected {A : Type} (o : outcome A) : Prop :=
  match o with Rejected _ => True | Resolved _ => False end.

Lemma bind_resolved_inv {A B : Type} (m : outcome A) (k : A -> outcome B) (b : B) :
  bind m k = Resolved b -> exists a, m = Resolved a /\ k a = Resolved b.
Proof. destruct m as [a|t]; simpl; [intro H; exists a; split; auto|discriminate]. Qed.

Lemma Forall_nth {A : Type} (P : A -> Prop) (arr : list A) (d : A) (n : nat) :
  Forall P arr -> P d -> P (nth n arr d).
Proof.
  intros Ha Hd. revert n. induction Ha as [|x arr Hx Ha IH]; intro n;
    destruct n; simpl; auto.
Qed.

Lemma Forall_firstn' {A : Type} (P : A -> Prop) (n : nat) (l : list A) :
  Forall P l -> Forall P (firstn n l).
Proof.
  intro H. apply Forall_forall. intros x Hx.
  apply (proj1 (Forall_forall P l) H). exact (in_firstn_in A n l x Hx).
Qed.

Lemma Forall_skipn' {A : Type} (P : A -> Prop) (n : nat) (l : list A) :
  Forall P l -> Forall P (skipn n l).
Proof.
  intro H. apply Forall_forall. intros x Hx.
  apply (proj1 (Forall_forall P l) H). exact (in_skipn_in A n l x Hx).
Qed.

Section SortMPure.
Variable A : Type.
Variable cmp : A -> A -> outcome Z.
Variable f : A -> A -> Z.
Variable P : A -> Prop.
Hypothesis Hf : forall a b, P a -> P b -> cmp a b = Resolved (f a b).

Lemma run_tail_m_pure (b : bool) (prev : A) (l : list A) :
  P prev -> Forall P l -> run_tail_m cmp b prev l = Resolved (run_tail f b prev l).
Proof.
  revert prev. induction l as [|x l IH]; intros prev Hp Hl; [reflexivity|].
  inversion Hl as [|? ? Hx Hl']; subst. simpl. rewrite (Hf x prev Hx Hp). simpl.
  destruct (if b then Z.geb (f x prev) 0 else Z.ltb (f x prev) 0); [reflexivity|].
  rewrite (IH x Hx Hl'). reflexivity.
Qed.

Lemma bs_loop_m_pure (fuel : nat) (pivot : A) (arr : list A) (left right : nat) :
  P pivot -> Forall P arr ->
  bs_loop_m cmp fuel pivot arr left right = Resolved (bs_loop f fuel pivot arr left right).
Proof.
  intros Hp Ha. revert left right. induction fuel as [|fuel IH]; intros left right;
    [reflexivity|].
  cbv zeta. cbn [bs_loop_m bs_loop].
  destruct (Nat.ltb left right); [|reflexivity].
  rewrite (Hf pivot _ Hp (Forall_nth P arr pivot _ Ha Hp)). simpl.
  destruct (Z.ltb _ 0); apply IH.
Qed.

Lemma bin_insert_m_pure (arr : list A) (pivot : A) :
  P pivot -> Forall P arr ->
  bin_insert_m cmp arr pivot = Resolved (bin_insert f arr pivot).
Proof.
  intros Hp Ha. unfold bin_insert_m, bin_insert.
  rewrite bs_loop_m_pure by assumption. reflexivity.
Qed.

Lemma binary_insertion_sort_m_pure (sorted rest : list A) :
  Forall P sorted -> Forall P rest ->
  binary_insertion_sort_m cmp sorted rest
  = Resolved (binary_insertion_sort f sorted rest).
Proof.
  revert sorted. induction rest as [|x rest IH]; intros sorted Hs Hr; [reflexivity|].
  inversion Hr as [|? ? Hx Hr']; subst. simpl.
  rewrite bin_insert_m_pure by assumption. simpl.
  apply IH; [|exact Hr'].
  apply (Forall_perm A P (x :: sorted)); [apply bin_insert_perm|constructor; assumption].
Qed.

Lemma array_sort_m_pure (l : list A) :
  Forall P l -> array_sort_m cmp l = Resolved (array_sort f l).
Proof.
  intro Hl. destruct l as [|a0 [|a1 rest]]; [reflexivity|reflexivity|].
  inversion Hl as [|? ? Ha0 Hl1]; inversion Hl1 as [|? ? Ha1 Hr]; subst.
  unfold array_sort_m, array_sort. rewrite (Hf a1 a0 Ha1 Ha0). cbn [bind].
  rewrite run_tail_m_pure by assumption. cbn [bind].
  apply binary_insertion_sort_m_pure.
  - destruct (Z.ltb (f a1 a0) 0).
    + apply Forall_rev. apply (Forall_firstn' P _ (a0 :: a1 :: rest)). exact Hl.
    + apply (Forall_firstn' P _ (a0 :: a1 :: rest)). exact Hl.
  - apply (Forall_skipn' P _ rest). exact Hr.
Qed.
End SortMPure.

Lemma in_firstn_S {A : Type} (n : nat) (l : list A) (x : A) :
  In x (firstn n l) -> In x (firstn (S n) l).
Proof.
  revert n. induction l as [|y l IH]; intros n H; [destruct n; destruct H|].
  destruct n as [|n]; [destruct H|].
  destruct H as [<-|H]; [left; reflexivity|right; exact (IH n H)].
Qed.

Section SortMReject.
Variable A : Type.
Variable cmp : A -> A -> outcome Z.
Variable bad : A -> Prop.
Hypothesis Hbad : forall x y, bad x -> is_rejected (cmp x y) /\ is_rejected (cmp y x).

Lemma cmp_resolved_good (x y : A) (o : Z) :
  cmp x y = Resolved o -> ~ bad x /\ ~ bad y.
Proof.
  intro H. split; intro Hb.
  - destruct (Hbad x y Hb) as [H1 _]. rewrite H in H1. exact H1.
  - destruct (Hbad y x Hb) as [_ H2]. rewrite H in H2. exact H2.
Qed.

Lemma run_tail_m_good (b : bool) (prev : A) (l : list A) (n : nat) :
  run_tail_m cmp b prev l = Resolved n -> forall x, In x (firstn (S n) l) -> ~ bad x.
Proof.
  revert prev n. induction l as [|c l IH]; intros prev n H x Hx; [destruct Hx|].
  simpl in H. apply bind_resolved_inv in H as [o [Ho H]].
  destruct (cmp_resolved_good _ _ _ Ho) as [Hc _].
  destruct (if b then Z.geb o 0 else Z.ltb o 0).
  - injection H as <-. simpl in Hx. destruct Hx as [<-|[]]. exact Hc.
  - apply bind_resolved_inv in H as [n' [Hn' H]]. injection H as <-.
    simpl in Hx. destruct Hx as [<-|Hx]; [exact Hc|].
    exact (IH c n' Hn' x Hx).
Qed.

Lemma bs_loop_m_good (fuel : nat) (pivot : A) (arr : list A) (left right : nat)
    (r : nat) :
  left < right ->
  bs_loop_m cmp (S fuel) pivot arr left right = Resolved r -> ~ bad pivot.
Proof.
  intros Hlt H. cbv zeta in H. cbn [bs_loop_m] in H.
  replace (Nat.ltb left right) with true in H by (symmetry; apply Nat.ltb_lt; exact Hlt).
  apply bind_resolved_inv in H as [o [Ho _]].
  exact (proj1 (cmp_resolved_good _ _ _ Ho)).
Qed.

Lemma binary_insertion_sort_m_good (arr rest r : list A) :
  arr <> [] -> binary_insertion_sort_m cmp arr rest = Resolved r ->
  forall x, In x rest -> ~ bad x.
Proof.
  revert arr. induction rest as [|p rest IH]; intros arr Harr H x Hx; [destruct Hx|].
  simpl in H. apply bind_resolved_inv in H as [arr' [Hi H]].
  unfold bin_insert_m in Hi. apply bind_resolved_inv in Hi as [left [Hl Hi]].
  injection Hi as <-.
  destruct Hx as [<-|Hx].
  - eapply bs_loop_m_good; [|exact Hl].
    destruct arr; [congruence|simpl; lia].
  - eapply IH; [|exact H|exact Hx].
    intro Hc. destruct (firstn left arr); discriminate Hc.
Qed.

Lemma array_sort_m_good (l r : list A) :
  2 <= length l -> array_sort_m cmp l = Resolved r -> forall x, In x l -> ~ bad x.
Proof.
  intros Hlen H x Hx.
  destruct l as [|a0 [|a1 rest]]; [simpl in Hlen; lia|simpl in Hlen; lia|].
  unfold array_sort_m in H.
  apply bind_resolved_inv in H as [o [Ho H]].
  destruct (cmp_resolved_good _ _ _ Ho) as [H1 H0].
  apply bind_resolved_inv in H as [n [Hn H]].
  destruct Hx as [<-|[<-|Hx]]; [exact H0|exact H1|].
  rewrite <- (firstn_skipn n rest) in Hx. apply in_app_or in Hx as [Hx|Hx].
  - apply (run_tail_m_good _ _ _ _ Hn). apply in_firstn_S. exact Hx.
  - cbn [skipn] in H.
    refine (binary_insertion_sort_m_good _ _ _ _ H x Hx).
    destruct (Z.ltb o 0); cbn [firstn]; [|discriminate].
    intro Hr. apply (f_equal (@length A)) in Hr. rewrite length_rev in Hr.
    simpl in Hr. discriminate.
Qed.
End SortMReject.

Section SortedId.
Variable A : Type.
Variable f : A -> A -> Z.
Variable key : A -> Z.
Variable P : A -> Prop.
Hypothesis Hcmp : forall a b, P a -> P b -> f a b = (key a - key b)%Z.

Lemma run_tail_sorted (prev : A) (l : list A) :
  Forall P (prev :: l) -> Sorted (key_le A key) (prev :: l) ->
  run_tail f false prev l = length l.
Proof.
  revert prev. induction l as [|c l IH]; intros prev HP Hs; [reflexivity|].
  inversion HP as [|? ? Hp HP']; inversion HP' as [|? ? Hc _]; subst.
  inversion Hs as [|? ? Hs' Hhd]; subst. inversion Hhd as [|? ? Hle]; subst.
  simpl. rewrite (Hcmp c prev Hc Hp). unfold key_le in Hle.
  replace (Z.ltb (key c - key prev) 0) with false by (symmetry; apply Z.ltb_ge; lia).
  rewrite (IH c HP' Hs'). reflexivity.
Qed.

Lemma array_sort_sorted_id (l : list A) :
  Forall P l -> Sorted (key_le A key) l -> array_sort f l = l.
Proof.
  intros HP Hs. destruct l as [|a0 [|a1 rest]]; [reflexivity|reflexivity|].
  inversion HP as [|? ? Ha0 HP1]; inversion HP1 as [|? ? Ha1 _]; subst.
  inversion Hs as [|? ? Hs1 Hhd]; subst. inversion Hhd as [|? ? Hle]; subst.
  unfold array_sort. rewrite (Hcmp a1 a0 Ha1 Ha0). unfold key_le in Hle.
  replace (Z.ltb (key a1 - key a0) 0) with false by (symmetry; apply Z.ltb_ge; lia).
  rewrite (run_tail_sorted a1 rest HP1 Hs1).
  replace (2 + length rest) with (length (a0 :: a1 :: rest)) by reflexivity.
  rewrite firstn_all, skipn_all. reflexivity.
Qed.
End SortedId.

(** The page's comparator on events that have a session. *)
Definition page_first_date (parse_date : string -> option Z) (e : PageEvent)
    : option Z :=
  match pe_sessions e with
  | [] => None
  | s :: _ => match date s with [] => None | d :: _ => parse_date d end
  end.

Definition page_key (parse_date : string -> option Z) (e : PageEvent) : Z :=
  match page_first_date parse_date e with Some x => x | None => 0%Z end.

Definition page_cmp_pure (parse_date : string -> option Z) (a b : PageEvent) : Z :=
  match page_first_date parse_date a, page_first_date parse_date b with
  | Some x, Some y => (x - y)%Z
  | _, _ => 0%Z
  end.

Definition page_date_le (parse_date : string -> option Z) (a b : PageEvent) : Prop :=
  match page_first_date parse_date a, page_first_date parse_date b with
  | Some x, Some y => (x <= y)%Z
  | _, _ => False
  end.

Lemma page_compare_pure (parse_date : string -> option Z) (a b : PageEvent) :
  pe_sessions a <> [] -> pe_sessions b <> [] ->
  page_compare parse_date a b = Resolved (page_cmp_pure parse_date a b).
Proof.
  intros Ha Hb. unfold page_compare, page_date_value, page_cmp_pure, page_first_date.
  destruct (pe_sessions a) as [|sa ra]; [congruence|].
  destruct (pe_sessions b) as [|sb rb]; [congruence|]. reflexivity.
Qed.

Lemma page_compare_bad (parse_date : string -> option Z) (x y : PageEvent) :
  pe_sessions x = [] ->
  is_rejected (page_compare parse_date x y) /\ is_rejected (page_compare parse_date y x).
Proof.
  intro Hx. unfold page_compare, page_date_value. rewrite Hx. simpl.
  split; [exact I|]. destruct (pe_sessions y); simpl; exact I.
Qed.

Definition fetch_url (isDev : bool) : string :=
  if isDev then "/api/chat" else "./events.json".
Definition fetch_init (isDev : bool) : option json :=
  if isDev then Some dev_request_body else None.

(** The state [fetchEvents] leaves when the events are set: the error
    state is kept unless [localStorage.setItem] throws. *)
Definition stored_error (setItem : StorageFn) (l : list PageEvent) (st : PageState)
    : option string :=
  match setItem l with
  | Resolved _ => error st
  | Rejected _ => Some "無法連線到伺服器，請稍後再試。"
  end.

Definition store_ok : StorageFn := fun _ => Resolved tt.
Definition store_blocked : StorageFn :=
  fun _ => Rejected (ErrorObj "SecurityError: The operation is insecure.").

Lemma fetchEvents_stored (isDev : bool) (fetch : FetchFn) (setItem : StorageFn)
    (parse_date : string -> option Z) (st : PageState) (r : FetchResponse)
    (data : option (list PageEvent)) (sorted : list PageEvent) :
  fetch (fetch_url isDev) (fetch_init isDev) = Resolved r ->
  json_events r = Resolved data -> ok r = true ->
  array_sort_m (page_compare parse_date)
    (match data with Some l => l | None => [] end) = Resolved sorted ->
  fetchEvents isDev fetch setItem parse_date st
  = mkPageState sorted false (stored_error setItem sorted st).
Proof.
  intros Hf Hj Hok Hs. unfold fetchEvents, fetch_try.
  fold (fetch_url isDev) (fetch_init isDev).
  rewrite Hf, Hj, Hok. simpl negb. cbv iota. rewrite Hs.
  unfold stored_error. destruct (setItem sorted); reflexivity.
Qed.

(** X12. [fetchEvents] always ends loading: a rejected [fetch] or an unreadable JSON body (checked before [response.ok]) sets the connection error, a non-ok response with a JSON body sets the load error, and an ok body without [events] shows an empty list, with the connection error only when [localStorage.setItem] throws. *)
Theorem page_fetch_outcomes (isDev : bool) (fetch : FetchFn) (setItem : StorageFn)
    (parse_date : string -> option Z) (st : PageState) (r : FetchResponse) :
  (forall t, fetch (fetch_url isDev) (fetch_init isDev) = Rejected t ->
     fetchEvents isDev fetch setItem parse_date st
     = mkPageState (events st) false (Some "無法連線到伺服器，請稍後再試。"))
  /\ (forall t, fetch (fetch_url isDev) (fetch_init isDev) = Resolved r ->
       json_events r = Rejected t ->
       fetchEvents isDev fetch setItem parse_date st
       = mkPageState (events st) false (Some "無法連線到伺服器，請稍後再試。"))
  /\ (forall d, fetch (fetch_url isDev) (fetch_init isDev) = Resolved r ->
       json_events r = Resolved d -> ok r = false ->
       fetchEvents isDev fetch setItem parse_date st
       = mkPageState (events st) false (Some "無法載入活動資料"))
  /\ (fetch (fetch_url isDev) (fetch_init isDev) = Resolved r ->
       json_events r = Resolved None -> ok r = true ->
       fetchEvents isDev fetch setItem parse_date st
       = mkPageState [] false
           (match setItem [] with
            | Resolved _ => error st
            | Rejected _ => Some "無法連線到伺服器，請稍後再試。"
            end)).
Proof.
  split; [|split; [|split]].
  - intros t H. unfold fetchEvents, fetch_try.
    fold (fetch_url isDev) (fetch_init isDev). rewrite H. reflexivity.
  - intros t H Hj. unfold fetchEvents, fetch_try.
    fold (fetch_url isDev) (fetch_init isDev). rewrite H, Hj. reflexivity.
  - intros d H Hj Hok. unfold fetchEvents, fetch_try.
    fold (fetch_url isDev) (fetch_init isDev). rewrite H, Hj, Hok. reflexivity.
  - intros H Hj Hok.
    exact (fetchEvents_stored isDev fetch setItem parse_date st r None [] H Hj Hok
             eq_refl).
Qed.

(** The fetch of a [POST] error response (status 500). *)
Definition error_fetch_response : FetchResponse :=
  response_to_fetch (error_response (ErrorObj "boom")).

Lemma page_fetch_outcomes_witness :
  json_events error_fetch_response = Resolved None
  /\ ok error_fetch_response = false
  /\ fetchEvents true (fun _ _ => Resolved error_fetch_response) store_ok
       iso_parse_date initial_page_state
     = mkPageState [] false (Some "無法載入活動資料").
Proof.
  assert (Hj : json_events error_fetch_response = Resolved None) by reflexivity.
  assert (Hok : ok error_fetch_response = false) by reflexivity.
  split; [exact Hj|split; [exact Hok|]].
  exact (proj1 (proj2 (proj2 (page_fetch_outcomes true
           (fun _ _ => Resolved error_fetch_response) store_ok iso_parse_date
           initial_page_state error_fetch_response))) None eq_refl Hj Hok).
Defined.


(** X13. When the fetched event list has at least two events and one of them has no session, the page's sort comparator throws and the page shows the connection error instead of the events. *)
Theorem page_sessionless_event_fails (isDev : bool) (fetch : FetchFn)
    (setItem : StorageFn) (parse_date : string -> option Z) (st : PageState)
    (r : FetchResponse) (l : list PageEvent) (e : PageEvent)
    (Hf : fetch (fetch_url isDev) (fetch_init isDev) = Resolved r)
    (Hok : ok r = true) (Hj : json_events r = Resolved (Some l))
    (Hin : In e l) (He : pe_sessions e = []) (Hlen : 2 <= length l) :
  fetchEvents isDev fetch setItem parse_date st
  = mkPageState (events st) false (Some "無法連線到伺服器，請稍後再試。").
Proof.
  assert (Hrej : is_rejected (array_sort_m (page_compare parse_date) l)).
  { destruct (array_sort_m (page_compare parse_date) l) as [out|t] eqn:Hs; [|exact I].
    exfalso. refine (array_sort_m_good PageEvent (page_compare parse_date)
                       (fun x => pe_sessions x = [])
                       (fun x y Hx => page_compare_bad parse_date x y Hx)
                       l out Hlen Hs e Hin He). }
  unfold fetchEvents, fetch_try. fold (fetch_url isDev) (fetch_init isDev).
  rewrite Hf, Hj, Hok. simpl negb. cbv iota.
  destruct (array_sort_m (page_compare parse_date) l); [destruct Hrej|reflexivity].
Qed.

Definition sessionless_list : list PageEvent :=
  [page_ev "A" "演唱會" [session_ex ["2026-03-01"]] None; page_ev "B" "展覽" [] None].

Lemma page_sessionless_event_fails_witness :
  In (page_ev "B" "展覽" [] None) sessionless_list
  /\ fetchEvents false
       (fun _ _ => Resolved (mkFetchResponse true (Resolved (Some sessionless_list))))
       store_ok iso_parse_date initial_page_state
     = mkPageState [] false (Some "無法連線到伺服器，請稍後再試。").
Proof.
  assert (Hin : In (page_ev "B" "展覽" [] None) sessionless_list)
    by (right; left; reflexivity).
  split; [exact Hin|].
  exact (page_sessionless_event_fails false
           (fun _ _ => Resolved (mkFetchResponse true (Resolved (Some sessionless_list))))
           store_ok iso_parse_date initial_page_state _ sessionless_list _ eq_refl eq_refl
           eq_refl Hin eq_refl (le_n 2)).
Defined.


(** X14. When every fetched event has a session, the page shows a permutation of the fetched list, ordered by first date when every first date parses; it keeps its error state when [localStorage.setItem] succeeds, and shows the connection error next to the events when it throws. *)
Theorem page_loads_sorted (isDev : bool) (fetch : FetchFn) (setItem : StorageFn)
    (parse_date : string -> option Z) (st : PageState) (r : FetchResponse)
    (l : list PageEvent)
    (Hf : fetch (fetch_url isDev) (fetch_init isDev) = Resolved r)
    (Hok : ok r = true) (Hj : json_events r = Resolved (Some l))
    (Hs : Forall (fun e => pe_sessions e <> []) l) :
  exists out, Permutation l out
    /\ fetchEvents isDev fetch setItem parse_date st
       = mkPageState out false
           (match setItem out with
            | Resolved _ => error st
            | Rejected _ => Some "無法連線到伺服器，請稍後再試。"
            end)
    /\ (Forall (fun e => page_first_date parse_date e <> None) l ->
        Sorted (page_date_le parse_date) out).
Proof.
  exists (array_sort (page_cmp_pure parse_date) l).
  split; [|split].
  - apply array_sort_perm.
  - exact (fetchEvents_stored isDev fetch setItem parse_date st r (Some l) _ Hf Hj Hok
             (array_sort_m_pure PageEvent (page_compare parse_date)
                (page_cmp_pure parse_date) (fun e => pe_sessions e <> [])
                (page_compare_pure parse_date) l Hs)).
  - intro Hd.
    pose proof (array_sort_sorted PageEvent (page_cmp_pure parse_date)
                  (page_key parse_date) (fun e => page_first_date parse_date e <> None))
      as HS.
    assert (Hss : StronglySorted (key_le PageEvent (page_key parse_date))
                    (array_sort (page_cmp_pure parse_date) l)).
    { apply HS; [|exact Hd]. intros a b Ha Hb. unfold page_cmp_pure, page_key.
      destruct (page_first_date parse_date a); [|congruence].
      destruct (page_first_date parse_date b); [|congruence]. reflexivity. }
    assert (Hd' : Forall (fun e => page_first_date parse_date e <> None)
                    (array_sort (page_cmp_pure parse_date) l))
      by (apply (Forall_perm PageEvent _ l); [apply array_sort_perm|exact Hd]).
    clear HS Hd Hs Hj Hf.
    induction (array_sort (page_cmp_pure parse_date) l) as [|a out IH];
      constructor.
    + inversion Hss; inversion Hd'; subst. apply IH; assumption.
    + inversion Hss as [|? ? _ Hfa]; inversion Hd' as [|? ? Ha Hd'']; subst.
      destruct out as [|b out]; constructor.
      inversion Hfa as [|? ? Hab _]; inversion Hd'' as [|? ? Hb _]; subst.
      unfold key_le, page_key, page_date_le in *.
      destruct (page_first_date parse_date a); [|congruence].
      destruct (page_first_date parse_date b); [|congruence]. exact Hab.
Qed.

Lemma page_loads_sorted_witness :
  Forall (fun e => pe_sessions e <> []) page_evs_ex
  /\ exists out, Permutation page_evs_ex out
       /\ fetchEvents false
            (fun _ _ => Resolved (mkFetchResponse true (Resolved (Some page_evs_ex))))
            store_blocked iso_parse_date initial_page_state
          = mkPageState out false
              (match store_blocked out with
               | Resolved _ => None
               | Rejected _ => Some "無法連線到伺服器，請稍後再試。"
               end)
       /\ (Forall (fun e => page_first_date iso_parse_date e <> None) page_evs_ex ->
           Sorted (page_date_le iso_parse_date) out).
Proof.
  assert (Hs : Forall (fun e => pe_sessions e <> []) page_evs_ex)
    by (repeat constructor; discriminate).
  split; [exact Hs|].
  exact (page_loads_sorted false
           (fun _ _ => Resolved (mkFetchResponse true (Resolved (Some page_evs_ex))))
           store_blocked iso_parse_date initial_page_state _ page_evs_ex eq_refl eq_refl
           eq_refl Hs).
Defined.

Lemma page_key_to_page_event (browser_parse node_parse : string -> option Z)
    (e : Event) :
  first_date_value browser_parse e = first_date_value node_parse e ->
  page_key browser_parse (to_page_event e) = date_key node_parse e.
Proof.
  intro H. unfold page_key, date_key.
  change (page_first_date browser_parse (to_page_event e))
    with (first_date_value browser_parse e).
  rewrite H. reflexivity.
Qed.

(** X15. In production, when the page fetches the collection written by a successful batch run, every event of it has a first date that Node's date parser accepts, and the browser's date parser gives the same values on those first dates, the page shows the events in exactly the written order; its error state is kept unless [localStorage.setItem] throws. *)
Theorem page_keeps_batch_order (node_parse browser_parse : string -> option Z)
    (now : LocalDate) (search : SearchFn) (generate : GenerateFn)
    (writeFileSync : WriteFn) (fetch : FetchFn) (setItem : StorageFn)
    (st : PageState) (out : list Event)
    (Hrun : run_batch node_parse now search generate writeFileSync
            = mkBatchResult (Some out) 0)
    (Hf : fetch "./events.json" None
          = Resolved (mkFetchResponse true (Resolved (Some (map to_page_event out)))))
    (Hdates : Forall (has_date node_parse) out)
    (Hsame : Forall (fun e => first_date_value browser_parse e
                              = first_date_value node_parse e) out) :
  fetchEvents false fetch setItem browser_parse st
  = mkPageState (map to_page_event out) false
      (match setItem (map to_page_event out) with
       | Resolved _ => error st
       | Rejected _ => Some "無法連線到伺服器，請稍後再試。"
       end).
Proof.
  unfold run_batch in Hrun.
  destruct (main node_parse now search generate writeFileSync) as [out'|t] eqn:Hm;
    [|discriminate].
  injection Hrun as <-. unfold main in Hm.
  apply bind_resolved_inv in Hm as [evs [Hext Hm]].
  destruct (writeFileSync (sort_events node_parse evs)) as [u|t']; [|discriminate].
  injection Hm as Hout.
  assert (Hev : Forall (has_date node_parse) evs).
  { apply (Forall_perm Event _ out'); [|exact Hdates].
    rewrite <- Hout. apply Permutation_sym, array_sort_perm. }
  assert (Hss : StronglySorted (key_le Event (date_key node_parse)) out').
  { rewrite <- Hout. unfold sort_events.
    apply (array_sort_sorted Event _ (date_key node_parse) (has_date node_parse));
      [|exact Hev].
    intros a b Ha Hb. apply call_compare_consistent; assumption. }
  assert (HP : Forall (fun e => page_first_date browser_parse e <> None)
                 (map to_page_event out')).
  { apply Forall_map. rewrite Forall_forall in Hdates, Hsame |- *. intros e He.
    change (first_date_value browser_parse e <> None).
    rewrite (Hsame e He). exact (Hdates e He). }
  assert (HPs : Forall (fun e => pe_sessions e <> []) (map to_page_event out')).
  { eapply Forall_impl; [|exact HP]. intros e H Hn. apply H.
    unfold page_first_date. rewrite Hn. reflexivity. }
  assert (Hsorted : Sorted (key_le PageEvent (page_key browser_parse))
                      (map to_page_event out')).
  { apply StronglySorted_Sorted in Hss. clear -Hss Hsame. revert Hsame.
    induction Hss as [|a l Hs IH Hhd]; intro Hsame; simpl; constructor.
    - apply IH. inversion Hsame; assumption.
    - destruct Hhd as [|b l Hab]; simpl; constructor.
      inversion Hsame as [|? ? Ha Hrest]; subst.
      inversion Hrest as [|? ? Hb _]; subst.
      unfold key_le in *.
      rewrite (page_key_to_page_event _ _ a Ha), (page_key_to_page_event _ _ b Hb).
      exact Hab. }
  assert (Hid : array_sort_m (page_compare browser_parse) (map to_page_event out')
                = Resolved (map to_page_event out')).
  { rewrite (array_sort_m_pure PageEvent (page_compare browser_parse)
               (page_cmp_pure browser_parse) (fun e => pe_sessions e <> [])
               (page_compare_pure browser_parse) _ HPs).
    rewrite (array_sort_sorted_id PageEvent (page_cmp_pure browser_parse)
               (page_key browser_parse)
               (fun e => page_first_date browser_parse e <> None));
      [reflexivity| |exact HP|exact Hsorted].
    intros a b Ha Hb. unfold page_cmp_pure, page_key.
    destruct (page_first_date browser_parse a); [|congruence].
    destruct (page_first_date browser_parse b); [|congruence]. reflexivity. }
  exact (fetchEvents_stored false fetch setItem browser_parse st _
           (Some (map to_page_event out')) _ Hf eq_refl eq_refl Hid).
Qed.

(** The collection written by the batch run on [ordered_json]. *)
Definition written_ex : list Event :=
  [event_ex "C" [session_ex ["2026-01-01"]];
   event_ex "D" [session_ex ["2026-02-01"; "2026-02-05"]];
   event_ex "A" [session_ex ["2026-03-01"]]].

Definition static_fetch (out : list Event) : FetchFn :=
  fun _ _ => Resolved (mkFetchResponse true (Resolved (Some (map to_page_event out)))).

(** A browser parser that also reads the [YYYY/MM/DD] form, which ECMAScript
    leaves to the implementation; on ISO dates it agrees with Node's. *)
Definition browser_parse_ex (s : string) : option Z :=
  match iso_parse_date s with
  | Some v => Some v
  | None =>
      iso_parse_date (String.concat "-" [substring 0 4 s; substring 5 2 s;
                                         substring 8 2 s])
  end.

Lemma page_keeps_batch_order_witness :
  run_batch iso_parse_date now_ex search_none (generate_const ordered_json) write_ok
    = mkBatchResult (Some written_ex) 0
  /\ Forall (has_date iso_parse_date) written_ex
  /\ Forall (fun e => first_date_value browser_parse_ex e
                      = first_date_value iso_parse_date e) written_ex
  /\ fetchEvents false (static_fetch written_ex) store_ok browser_parse_ex
       initial_page_state
     = mkPageState (map to_page_event written_ex) false None.
Proof.
  assert (Hrun : run_batch iso_parse_date now_ex search_none (generate_const ordered_json)
                   write_ok
                 = mkBatchResult (Some written_ex) 0) by (vm_compute; reflexivity).
  assert (Hd : Forall (has_date iso_parse_date) written_ex)
    by (repeat constructor; unfold has_date; vm_compute; discriminate).
  assert (Hb : Forall (fun e => first_date_value browser_parse_ex e
                                = first_date_value iso_parse_date e) written_ex)
    by (repeat constructor; vm_compute; reflexivity).
  split; [exact Hrun|split; [exact Hd|split; [exact Hb|]]].
  exact (page_keeps_batch_order iso_parse_date browser_parse_ex now_ex search_none
           (generate_const ordered_json) write_ok (static_fetch written_ex) store_ok
           initial_page_state written_ex Hrun eq_refl Hd Hb).
Defined.


(** X16. In development, when the extraction of [POST] throws (quota or any other error), the page shows its load error message, not the server's message. *)
Theorem dev_page_on_post_error (now : LocalDate) (search : SearchFn)
    (generate : GenerateFn) (fetch : FetchFn) (setItem : StorageFn)
    (parse_date : string -> option Z) (st : PageState) (t : thrown)
    (Hf : fetch "/api/chat" (Some dev_request_body)
          = Resolved (response_to_fetch
                        (POST (Resolved dev_request_body) now search generate)))
    (Hext : extract post_prompt now search generate = Rejected t) :
  fetchEvents true fetch setItem parse_date st
  = mkPageState (events st) false (Some "無法載入活動資料").
Proof.
  assert (HP : POST (Resolved dev_request_body) now search generate = error_response t).
  { unfold POST, post_try. simpl. rewrite Hext. reflexivity. }
  rewrite HP in Hf.
  unfold fetchEvents, fetch_try. simpl. rewrite Hf.
  unfold error_response.
  destruct (_ || _ || _); reflexivity.
Qed.

Definition generate_fail : GenerateFn :=
  fun _ _ => Rejected (ErrorObj "429 Too Many Requests").

Definition dev_fetch (now : LocalDate) (search : SearchFn) (generate : GenerateFn)
    : FetchFn :=
  fun _ _ => Resolved (response_to_fetch
                         (POST (Resolved dev_request_body) now search generate)).

Lemma dev_page_on_post_error_witness :
  extract post_prompt now_ex search_none generate_fail
    = Rejected (ErrorObj "429 Too Many Requests")
  /\ fetchEvents true (dev_fetch now_ex search_none generate_fail) store_ok
       iso_parse_date initial_page_state
     = mkPageState [] false (Some "無法載入活動資料").
Proof.
  assert (Hext : extract post_prompt now_ex search_none generate_fail
                 = Rejected (ErrorObj "429 Too Many Requests")) by (vm_compute; reflexivity).
  split; [exact Hext|].
  exact (dev_page_on_post_error now_ex search_none generate_fail
           (dev_fetch now_ex search_none generate_fail) store_ok iso_parse_date
           initial_page_state _ eq_refl Hext).
Defined.
